(** * PASCO1 token engine (src/lib/crypto.ts) and its attempt lockout
      (the Crypto Lab page), embedded in Rocq.

    The development follows the layering of the program:

    - [JS]: the host facilities the program calls and whose behaviour is
      fixed by the ECMAScript / WHATWG standards (string trimming and
      splitting, [btoa]/[atob], [TextEncoder]/[TextDecoder]);
    - [Host]: the host facilities that stay abstract (WebCrypto's PBKDF2,
      AES-GCM and SHA-256, [JSON.parse]/[JSON.stringify]);
    - [Crypto]: src/lib/crypto.ts, function by function;
    - [CryptoLab]: [runDecrypt] and the persisted attempts map of the
      Crypto Lab page;
    - [Handlers], [Storage] and [Format]: the other handlers of the page
      ([runEncryptText], [runEncryptFile], [clearHistory],
      [handlePasteDecrypt], the Clear buttons), [loadAttemptsMap] and
      [saveAttemptsMap] on [localStorage] itself, and [fmtBytes].

    Strings are sequences of UTF-16 code units, byte arrays are lists of
    [byte], integer-valued JavaScript numbers are [Z]; the iteration
    count, which a caller of crypto.ts chooses, is a [Number]: an integer,
    a number with a fractional part, [NaN] or an infinity. *)

From Stdlib Require Import ZArith NArith List Lia ZifyNat ZifyN ZifyBool.
From Stdlib Require Import Ascii String Bool.
From Stdlib Require Import Strings.Byte DecimalString.
From stdpp Require Import base option list gmap.

Import ListNotations.
Local Open Scope N_scope.

(** ** JavaScript values shared by all layers *)

(** A JavaScript string: its UTF-16 code units. *)
Definition jsstring := list N.

(** A [Uint8Array]. *)
Definition bytes := list byte.

(** A string literal of the source (ASCII only). *)
Definition str (s : string) : jsstring :=
  map N_of_ascii (list_ascii_of_string s).

(** What a [throw] carries: [new Error(message)] of the program, or one of
    the exceptions the host raises. *)
Inductive Exn : Type :=
| Error (message : string)
| InvalidCharacterError   (* DOMException of btoa / atob *)
| SyntaxError             (* JSON.parse *)
| TypeError               (* property access on null, call of a non-function *)
| OperationError.         (* WebCrypto rejects a call (its TypeError too) *)

(** The outcome of a call that may throw. *)
Inductive Result (A : Type) : Type :=
| Ok (a : A)
| Throw (e : Exn).
Arguments Ok {A} a.
Arguments Throw {A} e.

Definition rbind {A B} (r : Result A) (k : A -> Result B) : Result B :=
  match r with
  | Ok a => k a
  | Throw e => Throw e
  end.

Declare Scope result_scope.
Delimit Scope result_scope with result.
Notation "'let?' x ':=' r 'in' k" := (rbind r (fun x => k))
  (at level 10, x pattern, r at level 100, k at level 200) : result_scope.

Module JS.

(** *** String.prototype.trim / startsWith / split *)

(** WhiteSpace and LineTerminator code points of ECMAScript, the ones
    [trim] strips. *)
Definition isWhiteSpace (c : N) : bool :=
  (9 <=? c) && (c <=? 13)
  || (c =? 32) || (c =? 160) || (c =? 5760)
  || (8192 <=? c) && (c <=? 8202)
  || (c =? 8232) || (c =? 8233) || (c =? 8239) || (c =? 8287)
  || (c =? 12288) || (c =? 65279).

Fixpoint dropWhile {A} (p : A -> bool) (l : list A) : list A :=
  match l with
  | [] => []
  | x :: r => if p x then dropWhile p r else l
  end.

Definition trimStart (s : jsstring) : jsstring := dropWhile isWhiteSpace s.
Definition trimEnd (s : jsstring) : jsstring :=
  rev (dropWhile isWhiteSpace (rev s)).
Definition trim (s : jsstring) : jsstring := trimEnd (trimStart s).

Fixpoint startsWith (s p : jsstring) {struct p} : bool :=
  match p, s with
  | [], _ => true
  | _ :: _, [] => false
  | a :: p', b :: s' => (a =? b) && startsWith s' p'
  end.

(** [s.split(sep)] for a separator of one code unit. *)
Fixpoint split (sep : N) (s : jsstring) : list jsstring :=
  match s with
  | [] => [[]]
  | c :: r =>
      if c =? sep then [] :: split sep r
      else match split sep r with
           | h :: t => (c :: h) :: t
           | [] => [[c]]
           end
  end.

(** [s.replace(/c/g, d)] for single characters. *)
Definition replaceAll (c d : N) (s : jsstring) : jsstring :=
  map (fun x => if x =? c then d else x) s.

(** [s.slice(n)] for [0 <= n]. *)
Definition slice (n : nat) (s : jsstring) : jsstring := drop n s.

(** *** btoa / atob (WHATWG forgiving-base64) *)

Definition b64char (d : N) : N :=
  if d <? 26 then 65 + d
  else if d <? 52 then 97 + (d - 26)
  else if d <? 62 then 48 + (d - 52)
  else if d =? 62 then 43
  else 47.

Definition b64val (c : N) : option N :=
  if (65 <=? c) && (c <=? 90) then Some (c - 65)
  else if (97 <=? c) && (c <=? 122) then Some (c - 97 + 26)
  else if (48 <=? c) && (c <=? 57) then Some (c - 48 + 52)
  else if c =? 43 then Some 62
  else if c =? 47 then Some 63
  else None.

Definition eqSign : N := 61.

Fixpoint b64enc (l : list N) : jsstring :=
  match l with
  | a :: b :: c :: r =>
      b64char (a / 4) :: b64char ((a mod 4) * 16 + b / 16)
      :: b64char ((b mod 16) * 4 + c / 64) :: b64char (c mod 64)
      :: b64enc r
  | [a; b] =>
      [b64char (a / 4); b64char ((a mod 4) * 16 + b / 16);
       b64char ((b mod 16) * 4); eqSign]
  | [a] => [b64char (a / 4); b64char ((a mod 4) * 16); eqSign; eqSign]
  | [] => []
  end.

(** [btoa(s)]: throws when [s] has a code unit above 0xFF. *)
Definition btoa (s : jsstring) : Result jsstring :=
  if forallb (fun c => c <=? 255) s then Ok (b64enc s)
  else Throw InvalidCharacterError.

Definition isAsciiWhitespace (c : N) : bool :=
  (c =? 9) || (c =? 10) || (c =? 12) || (c =? 13) || (c =? 32).

(** The sextets of a string of alphabet characters, [None] when one of the
    characters is outside the alphabet. *)
Fixpoint b64vals (s : jsstring) : option (list N) :=
  match s with
  | [] => Some []
  | c :: r =>
      match b64val c, b64vals r with
      | Some v, Some vs => Some (v :: vs)
      | _, _ => None
      end
  end.

Fixpoint b64dec (l : list N) : list N :=
  match l with
  | a :: b :: c :: d :: r =>
      (a * 4 + b / 16) :: ((b mod 16) * 16 + c / 4) :: ((c mod 4) * 64 + d)
      :: b64dec r
  | [a; b; c] => [a * 4 + b / 16; (b mod 16) * 16 + c / 4]
  | [a; b] => [a * 4 + b / 16]
  | _ => []
  end.

(** Removes one or two trailing [=] (step 2 of forgiving-base64 decode,
    applied when the length is a multiple of four). *)
Definition stripPadding (s : jsstring) : jsstring :=
  match rev s with
  | a :: b :: r =>
      if (a =? eqSign) && (b =? eqSign) then rev r
      else if a =? eqSign then rev (b :: r)
      else s
  | [a] => if a =? eqSign then [] else s
  | [] => s
  end.

(** [atob(s)]. *)
Definition atob (s : jsstring) : Result jsstring :=
  let data := List.filter (fun c => negb (isAsciiWhitespace c)) s in
  let data := if (N.of_nat (length data) mod 4 =? 0) then stripPadding data
              else data in
  if N.of_nat (length data) mod 4 =? 1 then Throw InvalidCharacterError
  else match b64vals data with
       | Some vs => Ok (b64dec vs)
       | None => Throw InvalidCharacterError
       end.

(** *** TextEncoder / TextDecoder (WHATWG Encoding, UTF-8) *)

Definition isHighSurrogate (c : N) : bool := (0xD800 <=? c) && (c <=? 0xDBFF).
Definition isLowSurrogate (c : N) : bool := (0xDC00 <=? c) && (c <=? 0xDFFF).

(** Conversion of a string to scalar values: a surrogate pair is one
    scalar value, a lone surrogate becomes U+FFFD. *)
Fixpoint toScalars (s : jsstring) : list N :=
  match s with
  | [] => []
  | c :: r =>
      if isHighSurrogate c then
        match r with
        | d :: r' =>
            if isLowSurrogate d
            then (0x10000 + (c - 0xD800) * 0x400 + (d - 0xDC00)) :: toScalars r'
            else 0xFFFD :: toScalars r
        | [] => [0xFFFD]
        end
      else if isLowSurrogate c then 0xFFFD :: toScalars r
      else c :: toScalars r
  end.

(** The code units of a list of scalar values. *)
Definition fromScalar (c : N) : jsstring :=
  if c <? 0x10000 then [c]
  else [0xD800 + (c - 0x10000) / 0x400; 0xDC00 + (c - 0x10000) mod 0x400].

Definition fromScalars (l : list N) : jsstring := flat_map fromScalar l.

Definition byteOf (n : N) : byte :=
  match Byte.of_N n with
  | Some b => b
  | None => x00
  end.

Definition utf8Bytes (c : N) : bytes :=
  if c <? 0x80 then [byteOf c]
  else if c <? 0x800 then [byteOf (0xC0 + c / 64); byteOf (0x80 + c mod 64)]
  else if c <? 0x10000 then
    [byteOf (0xE0 + c / 4096); byteOf (0x80 + (c / 64) mod 64);
     byteOf (0x80 + c mod 64)]
  else
    [byteOf (0xF0 + c / 262144); byteOf (0x80 + (c / 4096) mod 64);
     byteOf (0x80 + (c / 64) mod 64); byteOf (0x80 + c mod 64)].

(** [new TextEncoder().encode(s)]. *)
Definition TextEncoder_encode (s : jsstring) : bytes :=
  flat_map utf8Bytes (toScalars s).

(** The state of the UTF-8 decoder. *)
Record Utf8State : Type := {
  codePoint : N;
  bytesSeen : N;
  bytesNeeded : N;
  lowerBoundary : N;
  upperBoundary : N
}.

Definition utf8Init : Utf8State :=
  {| codePoint := 0; bytesSeen := 0; bytesNeeded := 0;
     lowerBoundary := 0x80; upperBoundary := 0xBF |}.

(** The decoder on a byte when no continuation byte is expected: what it
    emits and its next state. The masks [b & 0x1F], [b & 0xF] and [b & 0x7]
    are the differences below on the ranges where they are taken. *)
Definition utf8Lead (b : N) : list N * Utf8State :=
  if b <=? 0x7F then ([b], utf8Init)
  else if (0xC2 <=? b) && (b <=? 0xDF) then
    ([], {| codePoint := b - 0xC0; bytesSeen := 0; bytesNeeded := 1;
            lowerBoundary := 0x80; upperBoundary := 0xBF |})
  else if (0xE0 <=? b) && (b <=? 0xEF) then
    ([], {| codePoint := b - 0xE0; bytesSeen := 0; bytesNeeded := 2;
            lowerBoundary := if b =? 0xE0 then 0xA0 else 0x80;
            upperBoundary := if b =? 0xED then 0x9F else 0xBF |})
  else if (0xF0 <=? b) && (b <=? 0xF4) then
    ([], {| codePoint := b - 0xF0; bytesSeen := 0; bytesNeeded := 3;
            lowerBoundary := if b =? 0xF0 then 0x90 else 0x80;
            upperBoundary := if b =? 0xF4 then 0x8F else 0xBF |})
  else ([0xFFFD], utf8Init).

(** The decoder run to the end of the input; a malformed sequence yields
    U+FFFD and its offending byte is read again as a first byte. *)
Fixpoint utf8Run (st : Utf8State) (bs : list N) : list N :=
  match bs with
  | [] => if bytesNeeded st =? 0 then [] else [0xFFFD]
  | b :: r =>
      if bytesNeeded st =? 0 then
        let '(out, st') := utf8Lead b in out ++ utf8Run st' r
      else if (lowerBoundary st <=? b) && (b <=? upperBoundary st) then
        let cp := codePoint st * 64 + (b - 0x80) in
        if bytesSeen st + 1 =? bytesNeeded st then cp :: utf8Run utf8Init r
        else utf8Run {| codePoint := cp; bytesSeen := bytesSeen st + 1;
                        bytesNeeded := bytesNeeded st;
                        lowerBoundary := 0x80; upperBoundary := 0xBF |} r
      else
        let '(out, st') := utf8Lead b in 0xFFFD :: out ++ utf8Run st' r
  end.

(** A decoder with [ignoreBOM] unset drops a first U+FEFF. *)
Definition dropBOM (l : list N) : list N :=
  match l with
  | c :: r => if c =? 0xFEFF then r else l
  | [] => []
  end.

(** [new TextDecoder().decode(bytes)]. *)
Definition TextDecoder_decode (b : bytes) : jsstring :=
  fromScalars (dropBOM (utf8Run utf8Init (map Byte.to_N b))).

(** [s.isWellFormed()]: no lone surrogate. *)
Fixpoint isWellFormed (s : jsstring) : bool :=
  match s with
  | [] => true
  | c :: r =>
      if isHighSurrogate c then
        match r with
        | d :: r' => isLowSurrogate d && isWellFormed r'
        | [] => false
        end
      else negb (isLowSurrogate c) && (c <? 0x10000) && isWellFormed r
  end.

(** *** Notions used to state properties of the above *)

(** The sextets [btoa] writes, before they are turned into characters. *)
Fixpoint sextets (l : list N) : list N :=
  match l with
  | a :: b :: c :: r =>
      a / 4 :: (a mod 4) * 16 + b / 16 :: (b mod 16) * 4 + c / 64 :: c mod 64
      :: sextets r
  | [a; b] => [a / 4; (a mod 4) * 16 + b / 16; (b mod 16) * 4]
  | [a] => [a / 4; (a mod 4) * 16]
  | [] => []
  end.

Fixpoint padOf (l : list N) : jsstring :=
  match l with
  | _ :: _ :: _ :: r => padOf r
  | [_; _] => [eqSign]
  | [_] => [eqSign; eqSign]
  | [] => []
  end.

(** The characters of the URL-safe alphabet. *)
Definition isUrlChar (c : N) : bool :=
  (65 <=? c) && (c <=? 90) || (97 <=? c) && (c <=? 122)
  || (48 <=? c) && (c <=? 57) || (c =? 45) || (c =? 95).

Definition toUrl (s : jsstring) : jsstring :=
  replaceAll 47 95 (replaceAll 43 45 s).
Definition fromUrl (s : jsstring) : jsstring :=
  replaceAll 95 47 (replaceAll 45 43 s).

(** A Unicode scalar value. *)
Definition isScalar (c : N) : Prop :=
  c < 0x110000 /\ ~ (0xD800 <= c <= 0xDFFF).

End JS.

(** ** The abstract part of the host *)

(** A JavaScript number: an integer, a number with a fractional part,
    [NaN], or an infinity. [Frac n bits] is the number strictly between
    [n] and [n + 1] whose fractional part is 0.b1...bk1 in binary, [bits]
    being b1...bk; every number that is not an integer is written in one
    way. (Minus zero, which no operation of the program tells from zero,
    is [Int 0].) *)
Inductive Number : Type :=
| Int (n : Z)
| Frac (n : Z) (bits : list bool)
| NaN
| Infinity (negative : bool).

(** A JavaScript value as far as the program handles one: what
    [JSON.parse] returns, [undefined], and the numbers that JSON does not
    write. An object is its list of properties in insertion order. A
    number is [VNum n] when it is the integer [n], [VFrac n bits] when it
    is [Frac n bits]. *)
#[local] Set Warnings "-register-all".
Inductive Value : Type :=
| VUndefined
| VNull
| VBool (b : bool)
| VNum (n : Z)
| VStr (s : jsstring)
| VArr (items : list Value)
| VObj (props : list (jsstring * Value))
| VFrac (n : Z) (bits : list bool)
| VNaN
| VInfinity (negative : bool).

(** A number as a value. *)
Definition numberValue (x : Number) : Value :=
  match x with
  | Int n => VNum n
  | Frac n bits => VFrac n bits
  | NaN => VNaN
  | Infinity negative => VInfinity negative
  end.

(** [Math.min(n, x)] and [Math.max(n, x)] for an integer [n]: [NaN] when
    [x] is; a number with a fractional part lies strictly between its
    integer part and the next integer. *)
Definition Math_min (n : Z) (x : Number) : Number :=
  match x with
  | Int m => Int (Z.min n m)
  | Frac m _ => if (m <? n)%Z then x else Int n
  | NaN => NaN
  | Infinity negative => if negative then x else Int n
  end.

Definition Math_max (n : Z) (x : Number) : Number :=
  match x with
  | Int m => Int (Z.max n m)
  | Frac m _ => if (n <=? m)%Z then x else Int n
  | NaN => NaN
  | Infinity negative => if negative then Int n else x
  end.

(** WebCrypto and JSON, as the program uses them. *)
Class Host : Type := {
  (** [CryptoKey] objects. *)
  CryptoKey : Type;
  (** [typeof crypto !== "undefined" && crypto.subtle]. *)
  hasWebCrypto : bool;
  (** [importKey("raw", utf8(password), "PBKDF2", ...)] followed by
      [deriveKey({name: "PBKDF2", salt, iterations, hash: "SHA-256"}, ...,
      {name: "AES-GCM", length: 256}, ...)]; [None] when WebCrypto
      rejects the parameters. *)
  subtle_deriveKey : jsstring -> bytes -> Value -> option CryptoKey;
  (** [encrypt({name: "AES-GCM", iv}, key, data)]. *)
  subtle_encrypt : CryptoKey -> bytes -> bytes -> bytes;
  (** [decrypt({name: "AES-GCM", iv}, key, data)]; [None] when the
      promise is rejected. *)
  subtle_decrypt : CryptoKey -> bytes -> bytes -> option bytes;
  (** [digest("SHA-256", data)]. *)
  subtle_digest : bytes -> bytes;
  JSON_stringify : Value -> jsstring;
  (** [None] when [JSON.parse] throws its [SyntaxError]. *)
  JSON_parse : jsstring -> option Value
}.

(** The calls into WebCrypto, in the order they are made. *)
Inductive CryptoOp : Type :=
| OpDeriveKey (password : jsstring) (salt : bytes) (iterations : Value)
| OpEncrypt (iv data : bytes)
| OpDecrypt (iv data : bytes)
| OpDigest (data : bytes).

(** An [async] function of crypto.ts: its outcome and the WebCrypto calls
    it made. *)
Definition Async (A : Type) : Type := Result A * list CryptoOp.

Definition ret {A} (a : A) : Async A := (Ok a, []).
Definition throw {A} (e : Exn) : Async A := (Throw e, []).
Definition lift {A} (r : Result A) : Async A := (r, []).
Definition perform {A} (op : CryptoOp) (r : Result A) : Async A := (r, [op]).

Definition bind {A B} (m : Async A) (k : A -> Async B) : Async B :=
  match m with
  | (Ok a, ops) => let '(r, ops') := k a in (r, ops ++ ops')
  | (Throw e, ops) => (Throw e, ops)
  end.

Declare Scope async_scope.
Delimit Scope async_scope with async.
Notation "x <- m ;; k" := (bind m (fun x => k))
  (at level 100, m at next level, right associativity) : async_scope.
Notation "m ;;; k" := (bind m (fun _ => k))
  (at level 100, right associativity) : async_scope.

(** ** src/lib/crypto.ts *)

Module Crypto.

(** [export type PascoHeader]: an object with the properties [v], [alg],
    [kdf], [iter], [salt], [iv], [createdAt], [kind] and, optionally,
    [filename], [mime], [size], [note]. The type is not checked at run
    time, so a header is any value. *)
Definition PascoHeader : Type := Value.

Record EncryptTextOptions : Type := {
  password : jsstring;
  note : option jsstring;
  iterations : option Number
}.

(** [EncryptFileOptions] has the same fields. *)
Definition EncryptFileOptions : Type := EncryptTextOptions.

(** A [File]: its [size] is the length of its content. *)
Record File : Type := {
  name : jsstring;
  type : jsstring;
  content : bytes
}.

Definition size (f : File) : Z := Z.of_nat (length (content f)).

Inductive DecryptResult : Type :=
| TextResult (header : PascoHeader) (text : jsstring) (fingerprint : jsstring)
| FileResult (header : PascoHeader) (data : bytes) (fingerprint : jsstring).

Definition fingerprint (r : DecryptResult) : jsstring :=
  match r with
  | TextResult _ _ fp => fp
  | FileResult _ _ fp => fp
  end.

Definition header (r : DecryptResult) : PascoHeader :=
  match r with
  | TextResult h _ _ => h
  | FileResult h _ _ => h
  end.

Record Encrypted : Type := {
  token : jsstring;
  encHeader : PascoHeader;
  encFingerprint : jsstring
}.

(** [value.name] for the property names the program reads (none of them
    is inherited from a prototype): [TypeError] on [null] and [undefined],
    the last property of that name of an object, [undefined] otherwise. *)
Fixpoint lookupProp (k : jsstring) (props : list (jsstring * Value))
  : Value :=
  match props with
  | [] => VUndefined
  | (k', v) :: r =>
      match lookupProp k r with
      | VUndefined =>
          if decide (k' = k)
          then v
          else VUndefined
      | found => found
      end
  end.

Definition getProp (v : Value) (k : string) : Result Value :=
  match v with
  | VUndefined | VNull => Throw TypeError
  | VObj props => Ok (lookupProp (str k) props)
  | _ => Ok VUndefined
  end.

(** [x === 1] and [x === "literal"]. *)
Definition isNum (x : Value) (n : Z) : bool :=
  match x with
  | VNum m => Z.eqb m n
  | _ => false
  end.

Definition isStr (x : Value) (s : string) : bool :=
  match x with
  | VStr t => bool_decide (t = str s)
  | _ => false
  end.

(** A method call [x.replace(...)] needs [x] to be a string. *)
Definition asString (x : Value) : Result jsstring :=
  match x with
  | VStr s => Ok s
  | _ => Throw TypeError
  end.

(** [header.name] for a header that is an object. *)
Definition headerProp (h : PascoHeader) (k : string) : Value :=
  match getProp h k with
  | Ok v => v
  | Throw _ => VUndefined
  end.

Section WithHost.
Context {host : Host}.
Local Open Scope async_scope.

Definition assertWebCrypto : Async unit :=
  if hasWebCrypto then ret tt
  else throw (Error "WebCrypto is not available in this environment.").

Definition stripTrailingEq (s : jsstring) : jsstring :=
  rev (JS.dropWhile (fun c => c =? JS.eqSign) (rev s)).

Definition toB64Url (b : bytes) : Result jsstring :=
  (let bin := map Byte.to_N b in
   let? b64 := JS.btoa bin in
   Ok (stripTrailingEq (JS.replaceAll 47 95 (JS.replaceAll 43 45 b64))))%result.

Definition fromB64Url (b64url : jsstring) : Result bytes :=
  (let b64 := JS.replaceAll 95 47 (JS.replaceAll 45 43 b64url)
              ++ JS.slice (Nat.modulo (length b64url + 3) 4) (str "===") in
   let? bin := JS.atob b64 in
   Ok (map (fun c => JS.byteOf (c mod 256)) bin))%result.

(** What [toB64Url] returns. *)
Definition base64url (b : bytes) : jsstring :=
  JS.toUrl (map JS.b64char (JS.sextets (map Byte.to_N b))).

Definition hexDigit (d : N) : N := if d <? 10 then 48 + d else 87 + d.

(** [b.toString(16).padStart(2, "0")]. *)
Definition hexByte (b : byte) : jsstring :=
  [hexDigit (Byte.to_N b / 16); hexDigit (Byte.to_N b mod 16)].

Definition sha256Hex (b : bytes) : Async jsstring :=
  assertWebCrypto ;;;
  hash <- perform (OpDigest b) (Ok (subtle_digest b)) ;;
  ret (flat_map hexByte hash).

Definition deriveKey (password : jsstring) (salt : bytes) (iterations : Value)
  : Async CryptoKey :=
  assertWebCrypto ;;;
  perform (OpDeriveKey password salt iterations)
          match subtle_deriveKey password salt iterations with
          | Some key => Ok key
          | None => Throw OperationError
          end.

Definition utf8Encode (s : jsstring) : bytes := JS.TextEncoder_encode s.
Definition utf8Decode (b : bytes) : jsstring := JS.TextDecoder_decode b.

Definition packHeader (header : PascoHeader) : Result jsstring :=
  let json := JSON_stringify header in
  toB64Url (utf8Encode json).

Definition unpackHeader (b64url : jsstring) : Result PascoHeader :=
  (let? raw := fromB64Url b64url in
   let json := utf8Decode raw in
   match JSON_parse json with
   | Some v => Ok v
   | None => Throw SyntaxError
   end)%result.

Definition PREFIX : jsstring := str "PASCO1.".
Definition DOT : N := 46.

(** [Math.max(50_000, Math.min(600_000, requested ?? fallback))]. *)
Definition clampIterations (requested : option Number) (fallback : Z)
  : Number :=
  Math_max 50000 (Math_min 600000 (default (Int fallback) requested)).

(** [opts.note?.trim() || undefined]. *)
Definition noteValue (note : option jsstring) : Value :=
  match note with
  | None => VUndefined
  | Some n => match JS.trim n with
              | [] => VUndefined
              | t => VStr t
              end
  end.

(** [encryptText]; [salt], [iv] are what the two calls of
    [crypto.getRandomValues] return and [createdAt] is
    [new Date().toISOString()]. *)
Definition encryptText (text : jsstring) (opts : EncryptTextOptions)
    (salt iv : bytes) (createdAt : jsstring) : Async Encrypted :=
  assertWebCrypto ;;;
  let iterations := clampIterations (iterations opts) 220000 in
  key <- deriveKey (password opts) salt (numberValue iterations) ;;
  let pt := utf8Encode text in
  ctBytes <- perform (OpEncrypt iv pt) (Ok (subtle_encrypt key iv pt)) ;;
  saltB64 <- lift (toB64Url salt) ;;
  ivB64 <- lift (toB64Url iv) ;;
  let header : PascoHeader :=
    VObj [(str "v", VNum 1);
          (str "alg", VStr (str "AES-256-GCM"));
          (str "kdf", VStr (str "PBKDF2-SHA256"));
          (str "iter", numberValue iterations);
          (str "salt", VStr saltB64);
          (str "iv", VStr ivB64);
          (str "createdAt", VStr createdAt);
          (str "kind", VStr (str "text"));
          (str "note", noteValue (note opts))] in
  packed <- lift (packHeader header) ;;
  ct64 <- lift (toB64Url ctBytes) ;;
  let token := PREFIX ++ packed ++ [DOT] ++ ct64 in
  fingerprint <- sha256Hex ctBytes ;;
  ret {| token := token; encHeader := header; encFingerprint := fingerprint |}.

(** [file.type || "application/octet-stream"]. *)
Definition mimeOf (f : File) : jsstring :=
  match type f with
  | [] => str "application/octet-stream"
  | t => t
  end.

Definition encryptFile (file : File) (opts : EncryptFileOptions)
    (salt iv : bytes) (createdAt : jsstring) : Async Encrypted :=
  assertWebCrypto ;;;
  let iterations := clampIterations (iterations opts) 260000 in
  key <- deriveKey (password opts) salt (numberValue iterations) ;;
  let pt := content file in
  ctBytes <- perform (OpEncrypt iv pt) (Ok (subtle_encrypt key iv pt)) ;;
  saltB64 <- lift (toB64Url salt) ;;
  ivB64 <- lift (toB64Url iv) ;;
  let header : PascoHeader :=
    VObj [(str "v", VNum 1);
          (str "alg", VStr (str "AES-256-GCM"));
          (str "kdf", VStr (str "PBKDF2-SHA256"));
          (str "iter", numberValue iterations);
          (str "salt", VStr saltB64);
          (str "iv", VStr ivB64);
          (str "createdAt", VStr createdAt);
          (str "kind", VStr (str "file"));
          (str "filename", VStr (name file));
          (str "mime", VStr (mimeOf file));
          (str "size", VNum (size file));
          (str "note", noteValue (note opts))] in
  packed <- lift (packHeader header) ;;
  ct64 <- lift (toB64Url ctBytes) ;;
  let token := PREFIX ++ packed ++ [DOT] ++ ct64 in
  fingerprint <- sha256Hex ctBytes ;;
  ret {| token := token; encHeader := header; encFingerprint := fingerprint |}.

(** [parts[i]]: [undefined] past the end, which no caller reaches. *)
Definition part (parts : list jsstring) (i : nat) : jsstring :=
  nth i parts [].

Definition decryptToken (token password : jsstring) : Async DecryptResult :=
  assertWebCrypto ;;;
  let trimmed := JS.trim token in
  if negb (JS.startsWith trimmed PREFIX)
  then throw (Error "Invalid token (missing PASCO1 header).") else
  let parts := JS.split DOT trimmed in
  if negb (Nat.eqb (length parts) 3)
  then throw (Error "Invalid token format.") else
  header <- lift (unpackHeader (part parts 1)) ;;
  v <- lift (getProp header "v") ;;
  if negb (isNum v 1) then throw (Error "Unsupported token version.") else
  alg <- lift (getProp header "alg") ;;
  if negb (isStr alg "AES-256-GCM")
  then throw (Error "Unsupported algorithm.") else
  kdf <- lift (getProp header "kdf") ;;
  if negb (isStr kdf "PBKDF2-SHA256") then throw (Error "Unsupported KDF.") else
  salt <- lift (let? s := getProp header "salt" in
                let? s := asString s in fromB64Url s)%result ;;
  iv <- lift (let? s := getProp header "iv" in
              let? s := asString s in fromB64Url s)%result ;;
  ctBytes <- lift (fromB64Url (part parts 2)) ;;
  iter <- lift (getProp header "iter") ;;
  key <- deriveKey password salt iter ;;
  ptBuf <- perform (OpDecrypt iv ctBytes)
             match subtle_decrypt key iv ctBytes with
             | Some pt => Ok pt
             | None => Throw (Error "Wrong key or corrupted token.")
             end ;;
  fingerprint <- sha256Hex ctBytes ;;
  kind <- lift (getProp header "kind") ;;
  if isStr kind "text"
  then ret (TextResult header (utf8Decode ptBuf) fingerprint)
  else ret (FileResult header ptBuf fingerprint).

Definition fingerprintFromToken (token : jsstring) : Async jsstring :=
  assertWebCrypto ;;;
  let trimmed := JS.trim token in
  if negb (JS.startsWith trimmed PREFIX)
  then throw (Error "Invalid token format (missing PASCO1 header).") else
  let parts := JS.split DOT trimmed in
  if negb (Nat.eqb (length parts) 3)
  then throw (Error "Invalid token format.") else
  ctBytes <- lift (fromB64Url (part parts 2)) ;;
  sha256Hex ctBytes.

(** *** Notions used to state properties of the above *)

(** What [decryptToken] checks and decodes before its first call into
    WebCrypto: the header, the salt, the IV, the ciphertext and the
    iteration count it will pass on. *)
Definition parseToken (token : jsstring)
  : Result (PascoHeader * bytes * bytes * bytes * Value) :=
  (let trimmed := JS.trim token in
   if negb (JS.startsWith trimmed PREFIX)
   then Throw (Error "Invalid token (missing PASCO1 header).") else
   let parts := JS.split DOT trimmed in
   if negb (Nat.eqb (length parts) 3)
   then Throw (Error "Invalid token format.") else
   let? header := unpackHeader (part parts 1) in
   let? v := getProp header "v" in
   if negb (isNum v 1) then Throw (Error "Unsupported token version.") else
   let? alg := getProp header "alg" in
   if negb (isStr alg "AES-256-GCM")
   then Throw (Error "Unsupported algorithm.") else
   let? kdf := getProp header "kdf" in
   if negb (isStr kdf "PBKDF2-SHA256") then Throw (Error "Unsupported KDF.") else
   let? salt := (let? s := getProp header "salt" in
                 let? s := asString s in fromB64Url s) in
   let? iv := (let? s := getProp header "iv" in
               let? s := asString s in fromB64Url s) in
   let? ctBytes := fromB64Url (part parts 2) in
   let? iter := getProp header "iter" in
   Ok (header, salt, iv, ctBytes, iter))%result.

(** What [decryptToken] does from its first call into WebCrypto on. *)
Definition decryptParsed (password : jsstring) (header : PascoHeader)
    (salt iv ctBytes : bytes) (iter : Value) : Async DecryptResult :=
  match subtle_deriveKey password salt iter with
  | None => (Throw OperationError, [OpDeriveKey password salt iter])
  | Some key =>
      match subtle_decrypt key iv ctBytes with
      | None => (Throw (Error "Wrong key or corrupted token."),
                 [OpDeriveKey password salt iter; OpDecrypt iv ctBytes])
      | Some ptBuf =>
          let fingerprint := flat_map hexByte (subtle_digest ctBytes) in
          (Ok (if isStr (headerProp header "kind") "text"
               then TextResult header (utf8Decode ptBuf) fingerprint
               else FileResult header ptBuf fingerprint),
           [OpDeriveKey password salt iter; OpDecrypt iv ctBytes;
            OpDigest ctBytes])
      end
  end.

(** The ciphertext as [fingerprintFromToken] reads it. *)
Definition parseCiphertext (token : jsstring) : Result bytes :=
  let trimmed := JS.trim token in
  if negb (JS.startsWith trimmed PREFIX)
  then Throw (Error "Invalid token format (missing PASCO1 header).") else
  let parts := JS.split DOT trimmed in
  if negb (Nat.eqb (length parts) 3)
  then Throw (Error "Invalid token format.") else
  fromB64Url (part parts 2).

(** The fingerprint of a ciphertext: the hexadecimal digits of its
    digest. *)
Definition fingerprintOf (ctBytes : bytes) : jsstring :=
  flat_map hexByte (subtle_digest ctBytes).

(** The header object [encryptText] builds. *)
Definition textHeader (opts : EncryptTextOptions) (salt iv : bytes)
    (createdAt : jsstring) : PascoHeader :=
  VObj [(str "v", VNum 1);
        (str "alg", VStr (str "AES-256-GCM"));
        (str "kdf", VStr (str "PBKDF2-SHA256"));
        (str "iter", numberValue (clampIterations (iterations opts) 220000));
        (str "salt", VStr (base64url salt));
        (str "iv", VStr (base64url iv));
        (str "createdAt", VStr createdAt);
        (str "kind", VStr (str "text"));
        (str "note", noteValue (note opts))].

(** The header object [encryptFile] builds. *)
Definition fileHeader (file : File) (opts : EncryptFileOptions)
    (salt iv : bytes) (createdAt : jsstring) : PascoHeader :=
  VObj [(str "v", VNum 1);
        (str "alg", VStr (str "AES-256-GCM"));
        (str "kdf", VStr (str "PBKDF2-SHA256"));
        (str "iter", numberValue (clampIterations (iterations opts) 260000));
        (str "salt", VStr (base64url salt));
        (str "iv", VStr (base64url iv));
        (str "createdAt", VStr createdAt);
        (str "kind", VStr (str "file"));
        (str "filename", VStr (name file));
        (str "mime", VStr (mimeOf file));
        (str "size", VNum (size file));
        (str "note", noteValue (note opts))].

(** The token of a header and a ciphertext. *)
Definition tokenOf (header : PascoHeader) (ctBytes : bytes) : jsstring :=
  PREFIX ++ base64url (utf8Encode (JSON_stringify header)) ++ [DOT]
  ++ base64url ctBytes.

(** An object without its properties that are [undefined], which is how
    JSON writes it. *)
Definition definedProps (v : Value) : Value :=
  match v with
  | VObj props =>
      VObj (List.filter (fun kv => match snd kv with
                                   | VUndefined => false
                                   | _ => true
                                   end) props)
  | _ => v
  end.

(** The ways a string fails the checks of [decryptToken]: no [PASCO1.]
    prefix, not three segments, a header segment that does not decode or
    parse, a header whose version, algorithm or KDF is not the supported
    one. *)
Definition missingPrefix (t : jsstring) : Prop :=
  JS.startsWith (JS.trim t) PREFIX = false.

Definition wrongSegmentCount (t : jsstring) : Prop :=
  length (JS.split DOT (JS.trim t)) <> 3%nat.

Definition headerSegment (t : jsstring) : jsstring :=
  part (JS.split DOT (JS.trim t)) 1.

Definition unparseableHeader (t : jsstring) : Prop :=
  exists e, unpackHeader (headerSegment t) = Throw e.

Definition unsupportedTags (t : jsstring) : Prop :=
  exists h, unpackHeader (headerSegment t) = Ok h
    /\ (getProp h "v" <> Ok (VNum 1)
        \/ getProp h "alg" <> Ok (VStr (str "AES-256-GCM"))
        \/ getProp h "kdf" <> Ok (VStr (str "PBKDF2-SHA256"))).

(** What the program relies on from the host. *)

(** [JSON.stringify] writes [v] as a well-formed string that does not
    start with U+FEFF, and [JSON.parse] reads that text back. *)
Definition jsonRoundTrips (v : Value) : Prop :=
  JS.isWellFormed (JSON_stringify v) = true
  /\ JS.startsWith (JSON_stringify v) [0xFEFF] = false
  /\ JSON_parse (JSON_stringify v) = Some (definedProps v).

(** PBKDF2 accepts every whole iteration count within the bounds of
    [encryptText] and [encryptFile]. *)
Definition derivesKeys : Prop :=
  forall password salt n, (50000 <= n <= 600000)%Z ->
    is_Some (subtle_deriveKey password salt (VNum n)).

(** PBKDF2 accepts the iteration count [count] for this password and
    salt. *)
Definition acceptsCount (password : jsstring) (salt : bytes)
    (count : Number) : Prop :=
  is_Some (subtle_deriveKey password salt (numberValue count)).


(** AES-GCM decrypts, under the same key and IV, what it encrypted. *)
Definition decryptsOwn : Prop :=
  forall key iv data,
    subtle_decrypt key iv (subtle_encrypt key iv data) = Some data.

End WithHost.

(** The error classes of the specification, by what is thrown. *)
Definition isFormatError (e : Exn) : Prop :=
  e = Error "Invalid token (missing PASCO1 header)."
  \/ e = Error "Invalid token format."
  \/ e = InvalidCharacterError \/ e = SyntaxError \/ e = TypeError
  \/ e = Error "Unsupported token version."
  \/ e = Error "Unsupported algorithm."
  \/ e = Error "Unsupported KDF.".

Definition isAuthenticationError (e : Exn) : Prop :=
  e = Error "Wrong key or corrupted token.".

Definition isEnvironmentError (e : Exn) : Prop :=
  e = Error "WebCrypto is not available in this environment.".

End Crypto.

(** ** The Crypto Lab page: the attempts map and [runDecrypt] *)

Module CryptoLab.
Import Crypto.

(** The text of a toast. *)
Inductive Message : Type :=
| Literal (text : string)
| AttemptsLeft (left : Z)        (* `Wrong key. Attempts left: ${left}` *)
| MessageOf (e : Exn).           (* e?.message || "Decryption failed" *)

(** What the page does that can be observed, in order: calls into
    WebCrypto and toasts. *)
Inductive Event : Type :=
| Called (op : CryptoOp)
| toast_error (m : Message)
| toast_success (m : Message).

(** [HistoryItem], without its random [id] and its time stamp [ts]. *)
Record HistoryItem : Type := {
  action : string;
  kind : string;
  itemFingerprint : jsstring;
  filename : Value;
  itemSize : Value;
  itemNote : Value;
  ok : bool
}.

Record FileMeta : Type := {
  metaFilename : Value;
  metaMime : Value;
  metaSize : Value
}.

(** The state [runDecrypt] reads and writes: the decrypt form, the
    decrypted output, the history, the attempts map kept in [localStorage]
    under [ATTEMPTS_KEY] (empty when the item is absent), and the log of
    what was observed. The progress bar and the busy flag are left out. *)
Record Page : Type := {
  tokenToDecrypt : jsstring;
  decPassword : jsstring;
  decryptedText : jsstring;
  decryptedFileBytes : option bytes;
  decryptedFileMeta : option FileMeta;
  history : list HistoryItem;
  attempts : gmap jsstring Z;
  log : list Event
}.

Definition maxAttempts : Z := 5.

Definition loadAttemptsMap (p : Page) : gmap jsstring Z := attempts p.

Definition saveAttemptsMap (m : gmap jsstring Z) (p : Page) : Page :=
  {| tokenToDecrypt := tokenToDecrypt p; decPassword := decPassword p;
     decryptedText := decryptedText p;
     decryptedFileBytes := decryptedFileBytes p;
     decryptedFileMeta := decryptedFileMeta p;
     history := history p; attempts := m; log := log p |}.

Definition emit (evs : list Event) (p : Page) : Page :=
  {| tokenToDecrypt := tokenToDecrypt p; decPassword := decPassword p;
     decryptedText := decryptedText p;
     decryptedFileBytes := decryptedFileBytes p;
     decryptedFileMeta := decryptedFileMeta p;
     history := history p; attempts := attempts p; log := log p ++ evs |}.

Definition setDecrypted (text : jsstring) (data : option bytes)
    (meta : option FileMeta) (p : Page) : Page :=
  {| tokenToDecrypt := tokenToDecrypt p; decPassword := decPassword p;
     decryptedText := text;
     decryptedFileBytes := data;
     decryptedFileMeta := meta;
     history := history p; attempts := attempts p; log := log p |}.

(** [[item, ...history].slice(0, 20)]. *)
Definition pushHistory (item : HistoryItem) (p : Page) : Page :=
  {| tokenToDecrypt := tokenToDecrypt p; decPassword := decPassword p;
     decryptedText := decryptedText p;
     decryptedFileBytes := decryptedFileBytes p;
     decryptedFileMeta := decryptedFileMeta p;
     history := take 20 (item :: history p);
     attempts := attempts p; log := log p |}.

(** [x || d]. *)
Definition orElse (x d : Value) : Value :=
  match x with
  | VUndefined | VNull | VBool false | VNum 0 | VStr [] | VNaN => d
  | _ => x
  end.

Definition resultKind (res : DecryptResult) : string :=
  match res with
  | TextResult _ _ _ => "text"
  | FileResult _ _ _ => "file"
  end.

Definition UNKNOWN : jsstring := str "unknown".

(** The user types a token and a key into the decrypt form. *)
Definition fill (token password : jsstring) (p : Page) : Page :=
  {| tokenToDecrypt := token; decPassword := password;
     decryptedText := decryptedText p;
     decryptedFileBytes := decryptedFileBytes p;
     decryptedFileMeta := decryptedFileMeta p;
     history := history p; attempts := attempts p; log := log p |}.

(** The counter of a fingerprint: [attemptsMap[fp] ?? 0]. *)
Definition used (p : Page) (fp : jsstring) : Z :=
  default 0%Z (attempts p !! fp).

(** No counter of the stored map is negative. *)
Definition validAttempts (p : Page) : Prop :=
  forall fp n, attempts p !! fp = Some n -> (0 <= n)%Z.

(** The form is filled: there is a token and a key to try. *)
Definition filled (p : Page) : Prop :=
  JS.trim (tokenToDecrypt p) <> [] /\ JS.trim (decPassword p) <> [].

(** The two toasts that report a lock. *)
Definition LOCKED : Event :=
  toast_error (Literal
    "Locked: too many wrong attempts for this token on this device.").

Definition WRONG_KEY_LOCKED : Event :=
  toast_error (Literal
    "Wrong key. Locked (5/5 attempts used on this device).").

(** Nothing decrypted is on display. *)
Definition nothingShown (p : Page) : Prop :=
  decryptedText p = [] /\ decryptedFileBytes p = None
  /\ decryptedFileMeta p = None.

Section WithHost.
Context {host : Host}.

(** [crypto.randomUUID()], which gives a history item its [id]. Like
    [crypto.subtle] it is there in a secure context only: where
    [crypto.subtle] is missing the call throws a [TypeError]. The
    identifier itself, like the [Date.now()] beside it, is not kept in a
    [HistoryItem]. *)
Definition randomUUID : Result unit :=
  if hasWebCrypto then Ok tt else Throw TypeError.

(** The [catch] block of [runDecrypt], entered with the exception [e].
    When [crypto.randomUUID()] throws while the history item is built,
    the exception leaves the handler and nothing is pushed. *)
Definition runDecrypt_catch (token : jsstring) (e : Exn) (p : Page) : Page :=
  (* On failure, compute a stable fingerprint from the ciphertext so
     attempts tracking works even when the key is wrong. *)
  let '(r, ops') := fingerprintFromToken token in
  let p := emit (map Called ops') p in
  let fp := match r with
            | Ok fp => fp
            | Throw _ => UNKNOWN   (* ignore (bad token) *)
            end in
  let p :=
    if bool_decide (fp <> UNKNOWN) then
      let attemptsMap := loadAttemptsMap p in
      let used := default 0%Z (attemptsMap !! fp) in
      let next := (used + 1)%Z in
      let p := saveAttemptsMap (<[fp := next]> attemptsMap) p in
      let left := Z.max 0 (maxAttempts - next) in
      if (left <=? 0)%Z
      then emit [toast_error (Literal
             "Wrong key. Locked (5/5 attempts used on this device).")] p
      else emit [toast_error (AttemptsLeft left)] p
    else emit [toast_error (MessageOf e)] p in
  match randomUUID with
  | Ok _ =>
      pushHistory {| action := "decrypt"; kind := "text";
                     itemFingerprint := fp;
                     filename := VUndefined; itemSize := VUndefined;
                     itemNote := VUndefined; ok := false |} p
  | Throw _ => p
  end.

(** An exception thrown in the [try] block, by [decryptToken] or by
    [crypto.randomUUID()], is caught by [runDecrypt_catch]. *)
Definition runDecrypt (p : Page) : Page :=
  let token := JS.trim (tokenToDecrypt p) in
  match token with
  | [] => emit [toast_error (Literal "Paste an encrypted token first")] p
  | _ =>
  match JS.trim (decPassword p) with
  | [] => emit [toast_error (Literal "Enter the secret key")] p
  | _ =>
  let p := setDecrypted [] None None p in
  match decryptToken token (decPassword p) with
  | (Ok res, ops) =>
      (* First try decrypt (gives us fingerprint) *)
      let p := emit (map Called ops) p in
      (* protection check (per-browser, persists across refresh) *)
      let attemptsMap := loadAttemptsMap p in
      let used := default 0%Z (attemptsMap !! fingerprint res) in
      if (maxAttempts <=? used)%Z then
        let p := emit [toast_error (Literal
          "Locked: too many wrong attempts for this token on this device.")] p in
        match randomUUID with
        | Ok _ =>
            pushHistory {| action := "decrypt"; kind := resultKind res;
                           itemFingerprint := fingerprint res;
                           filename := headerProp (header res) "filename";
                           itemSize := headerProp (header res) "size";
                           itemNote := headerProp (header res) "note";
                           ok := false |} p
        | Throw e => runDecrypt_catch token e p
        end
      else
        let p :=
          match res with
          | TextResult _ text _ =>
              emit [toast_success (Literal "Decrypted successfully")]
                   (setDecrypted text None None p)
          | FileResult h data _ =>
              emit [toast_success (Literal "File decrypted successfully")]
                   (setDecrypted (decryptedText p) (Some data)
                      (Some {| metaFilename :=
                                 orElse (headerProp h "filename")
                                        (VStr (str "decrypted.bin"));
                               metaMime := headerProp h "mime";
                               metaSize := headerProp h "size" |}) p)
          end in
        (* reset attempts on success *)
        let p := saveAttemptsMap (<[fingerprint res := 0%Z]> attemptsMap) p in
        match randomUUID with
        | Ok _ =>
            pushHistory {| action := "decrypt"; kind := resultKind res;
                           itemFingerprint := fingerprint res;
                           filename := headerProp (header res) "filename";
                           itemSize := headerProp (header res) "size";
                           itemNote := headerProp (header res) "note";
                           ok := true |} p
        | Throw e => runDecrypt_catch token e p
        end
  | (Throw e, ops) => runDecrypt_catch token e (emit (map Called ops) p)
  end
  end
  end.







End WithHost.
End CryptoLab.

(** ** The Crypto Lab page: the encrypt tab and the other handlers *)

Module Handlers.
Import Crypto CryptoLab.

(** The encrypt form and the token it shows. *)
Record EncryptForm : Type := {
  plainText : jsstring;
  encPassword : jsstring;
  encNote : jsstring;
  fileToEncrypt : option File;
  encryptedToken : jsstring
}.

(** The state of the component: the encrypt form besides what [Page]
    holds. *)
Record Lab : Type := {
  form : EncryptForm;
  page : Page
}.

Definition setEncryptedToken (t : jsstring) (f : EncryptForm) : EncryptForm :=
  {| plainText := plainText f; encPassword := encPassword f;
     encNote := encNote f; fileToEncrypt := fileToEncrypt f;
     encryptedToken := t |}.

Definition setPlainText (t : jsstring) (f : EncryptForm) : EncryptForm :=
  {| plainText := t; encPassword := encPassword f;
     encNote := encNote f; fileToEncrypt := fileToEncrypt f;
     encryptedToken := encryptedToken f |}.

Definition setTokenToDecrypt (t : jsstring) (p : Page) : Page :=
  {| tokenToDecrypt := t; decPassword := decPassword p;
     decryptedText := decryptedText p;
     decryptedFileBytes := decryptedFileBytes p;
     decryptedFileMeta := decryptedFileMeta p;
     history := history p; attempts := attempts p; log := log p |}.

Definition setHistory (h : list HistoryItem) (p : Page) : Page :=
  {| tokenToDecrypt := tokenToDecrypt p; decPassword := decPassword p;
     decryptedText := decryptedText p;
     decryptedFileBytes := decryptedFileBytes p;
     decryptedFileMeta := decryptedFileMeta p;
     history := h; attempts := attempts p; log := log p |}.

(** [e?.message || fallback] for what crypto.ts throws: the message of an
    [Error] of the program; an exception of the host brings its own
    message. *)
Definition messageOr (e : Exn) (fallback : string) : Message :=
  match e with
  | Error EmptyString => Literal fallback
  | Error m => Literal m
  | _ => MessageOf e
  end.

(** The options the encrypt handlers pass: the key and the note of the
    form, no iteration count. *)
Definition optionsOf (f : EncryptForm) : EncryptTextOptions :=
  {| password := encPassword f; note := Some (encNote f);
     iterations := None |}.

(** [clearHistory]; [confirmed] is the answer to [confirm(...)]. The copy
    of the history in [localStorage] is left out, as in [pushHistory]. *)
Definition clearHistory (confirmed : bool) (p : Page) : Page :=
  match history p with
  | [] => p
  | _ => if confirmed
         then emit [toast_success (Literal "History cleared")]
                   (setHistory [] p)
         else p
  end.

(** [handlePasteDecrypt]; [clipboard] is what
    [navigator.clipboard.readText()] gives. *)
Definition handlePasteDecrypt (clipboard : Result jsstring) (p : Page)
  : Page :=
  match clipboard with
  | Ok [] => p
  | Ok text => setTokenToDecrypt text p
  | Throw _ => emit [toast_error (Literal "Clipboard access denied")] p
  end.

(** The Clear button of the decrypt tab. *)
Definition clearDecrypt (p : Page) : Page :=
  emit [toast_success (Literal "Cleared")]
       (setDecrypted [] None None (setTokenToDecrypt [] p)).

(** The Clear button of the encrypt tab. *)
Definition clearEncrypt (s : Lab) : Lab :=
  {| form := setEncryptedToken [] (setPlainText [] (form s));
     page := emit [toast_success (Literal "Cleared")] (page s) |}.

Section WithHost.
Context {host : Host}.

(** The [catch] block of [runEncryptText] and of [runEncryptFile], with
    the message and the kind each of them gives. When
    [crypto.randomUUID()] throws while the history item is built, the
    exception leaves the handler and nothing is pushed. *)
Definition runEncrypt_catch (fallback kind : string) (e : Exn) (p : Page)
  : Page :=
  let p := emit [toast_error (messageOr e fallback)] p in
  match randomUUID with
  | Ok _ =>
      pushHistory {| action := "encrypt"; kind := kind;
                     itemFingerprint := str "n/a";
                     filename := VUndefined; itemSize := VUndefined;
                     itemNote := VUndefined; ok := false |} p
  | Throw _ => p
  end.

(** [runEncryptText]; [salt], [iv] and [createdAt] are what [encryptText]
    draws. An exception thrown in the [try] block, by [encryptText] or by
    [crypto.randomUUID()], is caught by [runEncrypt_catch]. *)
Definition runEncryptText (salt iv : bytes) (createdAt : jsstring) (s : Lab)
  : Lab :=
  let f := form s in
  let p := page s in
  match JS.trim (plainText f) with
  | [] => {| form := f;
             page := emit [toast_error (Literal "Enter text to encrypt")] p |}
  | _ =>
  match JS.trim (encPassword f) with
  | [] => {| form := f;
             page := emit [toast_error (Literal "Enter a secret key")] p |}
  | _ =>
  let f := setEncryptedToken [] f in
  match encryptText (plainText f) (optionsOf f) salt iv createdAt with
  | (Ok e, ops) =>
      let p := emit (map Called ops) p in
      let f := setEncryptedToken (token e) f in
      let p := emit [toast_success (Literal "Encrypted successfully")] p in
      {| form := f;
         page := match randomUUID with
                 | Ok _ =>
                     pushHistory
                       {| action := "encrypt"; kind := "text";
                          itemFingerprint := encFingerprint e;
                          filename := VUndefined; itemSize := VUndefined;
                          itemNote := headerProp (encHeader e) "note";
                          ok := true |} p
                 | Throw x => runEncrypt_catch "Encryption failed" "text" x p
                 end |}
  | (Throw e, ops) =>
      let p := emit (map Called ops) p in
      {| form := f;
         page := runEncrypt_catch "Encryption failed" "text" e p |}
  end
  end
  end.

(** [runEncryptFile], likewise. *)
Definition runEncryptFile (salt iv : bytes) (createdAt : jsstring) (s : Lab)
  : Lab :=
  let f := form s in
  let p := page s in
  match fileToEncrypt f with
  | None => {| form := f;
               page := emit [toast_error (Literal "Select a file first")] p |}
  | Some file =>
  match JS.trim (encPassword f) with
  | [] => {| form := f;
             page := emit [toast_error (Literal "Enter a secret key")] p |}
  | _ =>
  let f := setEncryptedToken [] f in
  match encryptFile file (optionsOf f) salt iv createdAt with
  | (Ok e, ops) =>
      let p := emit (map Called ops) p in
      let f := setEncryptedToken (token e) f in
      let p := emit [toast_success (Literal "File encrypted successfully")] p in
      {| form := f;
         page := match randomUUID with
                 | Ok _ =>
                     pushHistory
                       {| action := "encrypt"; kind := "file";
                          itemFingerprint := encFingerprint e;
                          filename := headerProp (encHeader e) "filename";
                          itemSize := headerProp (encHeader e) "size";
                          itemNote := headerProp (encHeader e) "note";
                          ok := true |} p
                 | Throw x =>
                     runEncrypt_catch "File encryption failed" "file" x p
                 end |}
  | (Throw e, ops) =>
      let p := emit (map Called ops) p in
      {| form := f;
         page := runEncrypt_catch "File encryption failed" "file" e p |}
  end
  end
  end.

(** *** Notions used to state properties of the above *)


(** What a user does on the page: typing into the decrypt form, the
    Paste, Decrypt and Clear buttons of the decrypt tab, typing into the
    encrypt form and choosing a file, the two Encrypt buttons and the Clear
    button of the encrypt tab, and the Clear History button. *)
Inductive Action : Type :=
| Type_decrypt (token password : jsstring)
| Paste (clipboard : Result jsstring)
| Decrypt
| Clear_decrypt
| Type_encrypt (text password note : jsstring) (file : option File)
| Encrypt_text (salt iv : bytes) (createdAt : jsstring)
| Encrypt_file (salt iv : bytes) (createdAt : jsstring)
| Clear_encrypt
| Clear_history (confirmed : bool).

(** A handler that only touches what [Page] holds. *)
Definition onPage (f : Page -> Page) (s : Lab) : Lab :=
  {| form := form s; page := f (page s) |}.

(** The handler an action runs. *)
Definition act (a : Action) (s : Lab) : Lab :=
  match a with
  | Type_decrypt token password => onPage (fill token password) s
  | Paste clipboard => onPage (handlePasteDecrypt clipboard) s
  | Decrypt => onPage runDecrypt s
  | Clear_decrypt => onPage clearDecrypt s
  | Type_encrypt text password note file =>
      {| form := {| plainText := text; encPassword := password;
                    encNote := note; fileToEncrypt := file;
                    encryptedToken := encryptedToken (form s) |};
         page := page s |}
  | Encrypt_text salt iv createdAt => runEncryptText salt iv createdAt s
  | Encrypt_file salt iv createdAt => runEncryptFile salt iv createdAt s
  | Clear_encrypt => clearEncrypt s
  | Clear_history confirmed => onPage (clearHistory confirmed) s
  end.

(** Actions one after the other. *)
Definition actAll (l : list Action) (s : Lab) : Lab :=
  fold_left (fun s a => act a s) l s.

End WithHost.
End Handlers.

(** ** The Crypto Lab page: the attempts map in [localStorage] *)

Module Storage.
Import CryptoLab.

(** [localStorage] as the page uses it: its items, whether the browser
    lets the page read it, and which writes it takes ([getItem] and
    [setItem] throw otherwise: storage disabled, quota exceeded). *)
Record LocalStorage : Type := {
  items : gmap jsstring jsstring;
  readable : bool;
  accepts : jsstring -> jsstring -> bool
}.

(** [localStorage.getItem(k)]: [None] when it throws, [Some None] for
    [null]. *)
Definition getItem (k : jsstring) (s : LocalStorage)
  : option (option jsstring) :=
  if readable s then Some (items s !! k) else None.

(** [localStorage.setItem(k, v)]: [None] when it throws. *)
Definition setItem (k v : jsstring) (s : LocalStorage) : option LocalStorage :=
  if accepts s k v
  then Some {| items := <[k := v]> (items s); readable := readable s;
               accepts := accepts s |}
  else None.

Definition ATTEMPTS_KEY : jsstring := str "pasco_crypto_attempts_v2".

Section WithHost.
Context {host : Host}.

(** [loadAttemptsMap] and [saveAttemptsMap] on [localStorage]; the page
    model above keeps what they exchange as the field [attempts]. *)
Definition loadAttemptsMap (s : LocalStorage) : Value :=
  match getItem ATTEMPTS_KEY s with
  | None => VObj []                        (* catch *)
  | Some None => VObj []                   (* !raw *)
  | Some (Some []) => VObj []              (* !raw *)
  | Some (Some raw) =>
      match JSON_parse raw with
      | None => VObj []                    (* catch *)
      | Some v => orElse v (VObj [])
      end
  end.

Definition saveAttemptsMap (map : Value) (s : LocalStorage) : LocalStorage :=
  match setItem ATTEMPTS_KEY (JSON_stringify map) s with
  | Some s' => s'
  | None => s                              (* ignore *)
  end.

End WithHost.
End Storage.

(** ** The Crypto Lab page: [fmtBytes] *)

Module Format.

(** The digits of an integer, with its sign. *)
Definition decimal (n : Z) : jsstring :=
  str (NilZero.string_of_int (Z.to_int n)).

Definition units : list string := ["B"; "KB"; "MB"; "GB"]%string.

(** The loop of [fmtBytes] on an integer [n] that a number holds exactly
    (below 2^53 in absolute value), [x] being [n / 1024 ^ i]: a division
    of a number by 1024 is exact, so [x >= 1024] is
    [1024 ^ (i + 1) <= n]. The loop ends after at most [units.length - 1]
    rounds. *)
Fixpoint scale (rounds : nat) (n : Z) (i : nat) : nat :=
  match rounds with
  | O => i
  | S rounds =>
      if (1024 ^ (Z.of_nat i + 1) <=? n)%Z && (i <? length units - 1)%nat
      then scale rounds n (S i)
      else i
  end.

(** [x.toFixed(1)] for [x = num / den] with [0 <= num] and [0 < den]: the
    digits of the integer nearest to [10 * x], the larger of two, with a
    point before the last one. *)
Definition toFixed1 (num den : Z) : jsstring :=
  let m := ((20 * num + den) / (2 * den))%Z in
  decimal (m / 10) ++ str "." ++ decimal (m mod 10).

(** [fmtBytes(n)] for [undefined] and for a number that is an integer
    below 2^53 in absolute value ([x.toFixed(0)] is then the digits of
    [x]; zero, for which [!n] holds, is not shown as ["-"]). *)
Definition fmtBytes (n : option Z) : jsstring :=
  match n with
  | None => str "-"
  | Some n =>
      let i := scale (length units - 1) n 0 in
      (if (i =? 0)%nat then decimal n else toFixed1 n (1024 ^ Z.of_nat i))
      ++ str " " ++ str (nth i units ""%string)
  end.

End Format.

(** ** Notions used to state properties of tokens and headers *)

Module Shape.
Import Crypto.

(** The shape of a token: the prefix, then two segments of URL-safe
    characters with a dot between them. *)
Definition wellShaped (t : jsstring) : Prop :=
  exists a b,
    t = PREFIX ++ a ++ [DOT] ++ b
    /\ Forall (fun c => JS.isUrlChar c = true) a
    /\ Forall (fun c => JS.isUrlChar c = true) b.

(** The note a header carries for the note [n] of the options: none when
    [n] is absent or blank, [n] trimmed otherwise. *)
Definition noteOf (n : option jsstring) (v : Value) : Prop :=
  match n with
  | None => v = VUndefined
  | Some n => (JS.trim n = [] /\ v = VUndefined)
              \/ (JS.trim n <> [] /\ v = VStr (JS.trim n))
  end.

(** A text as [TextDecoder] gives it back from what [TextEncoder] wrote:
    every lone surrogate replaced by U+FFFD, and without a first
    U+FEFF. *)
Definition decoded (s : jsstring) : jsstring :=
  JS.fromScalars (JS.dropBOM (JS.toScalars s)).

(** What [fromB64Url] makes of a character before it calls [atob]: [-]
    becomes [+] and [_] becomes [/]. *)
Definition standardChar (c : N) : N :=
  if (if c =? 45 then 43 else c) =? 95 then 47
  else (if c =? 45 then 43 else c).

End Shape.

(** ** A host to run the program on

    A small host for evaluating the program on concrete inputs: its JSON
    reads and writes objects whose properties are plain strings and
    non-negative integers, as real JSON does on those; its key derivation,
    cipher and digest are checksums that only keep the shape of the real
    ones (a key depends on password, salt and iteration count; decryption
    fails on another key or a modified tag). As WebCrypto does, its key
    derivation takes the integer part of a count that has a fractional
    part, and rejects a count that is not a number from 1 to 2^32 - 1,
    [NaN] and the infinities among them. *)

Module TestHost.

Definition sumN (l : list N) : N := fold_right N.add 0 l.

Definition deriveKey (password : jsstring) (salt : bytes) (iterations : Value)
  : option N :=
  match iterations with
  | VNum n | VFrac n _ =>
      if (0 <? n)%Z && (n <? 4294967296)%Z
      then Some ((sumN password + sumN (map Byte.to_N salt) + Z.to_N n) mod 256)
      else None
  | _ => None
  end.

Definition tag (key : N) (iv : bytes) : byte :=
  JS.byteOf ((key + sumN (map Byte.to_N iv)) mod 256).

Definition encrypt (key : N) (iv data : bytes) : bytes := tag key iv :: data.

Definition decrypt (key : N) (iv data : bytes) : option bytes :=
  match data with
  | t :: body => if Byte.eqb t (tag key iv) then Some body else None
  | [] => None
  end.

Definition digest (data : bytes) : bytes :=
  [JS.byteOf (sumN (map Byte.to_N data) mod 256);
   JS.byteOf (N.of_nat (length data) mod 256)].

Definition quote (s : jsstring) : jsstring := [34] ++ s ++ [34].

Definition decimal (n : Z) : jsstring :=
  str (NilZero.string_of_int (Z.to_int n)).

Definition stringifyAtom (v : Value) : jsstring :=
  match v with
  | VNum n => decimal n
  | VStr s => quote s
  | VBool true => str "true"
  | VBool false => str "false"
  | _ => str "null"
  end.

Fixpoint stringifyProps (props : list (jsstring * Value)) : list jsstring :=
  match props with
  | [] => []
  | (_, VUndefined) :: r => stringifyProps r
  | (k, v) :: r => (quote k ++ [58] ++ stringifyAtom v) :: stringifyProps r
  end.

Fixpoint join (sep : N) (l : list jsstring) : jsstring :=
  match l with
  | [] => []
  | [x] => x
  | x :: r => x ++ [sep] ++ join sep r
  end.

Definition stringify (v : Value) : jsstring :=
  match v with
  | VObj props => [123] ++ join 44 (stringifyProps props) ++ [125]
  | _ => stringifyAtom v
  end.

Fixpoint untilQuote (s : jsstring) : option (jsstring * jsstring) :=
  match s with
  | [] => None
  | c :: r =>
      if c =? 34 then Some ([], r)
      else if c =? 92 then None
      else match untilQuote r with
           | Some (a, rest) => Some (c :: a, rest)
           | None => None
           end
  end.

Definition isDigit (c : N) : bool := (48 <=? c) && (c <=? 57).

Fixpoint digits (acc : Z) (s : jsstring) : Z * jsstring :=
  match s with
  | c :: r => if isDigit c then digits (acc * 10 + Z.of_N (c - 48)) r
              else (acc, s)
  | [] => (acc, [])
  end.

Definition parseAtom (s : jsstring) : option (Value * jsstring) :=
  match s with
  | 34 :: r =>
      match untilQuote r with
      | Some (a, rest) => Some (VStr a, rest)
      | None => None
      end
  | c :: _ => if isDigit c then let '(n, rest) := digits 0 s in
                                Some (VNum n, rest)
              else None
  | [] => None
  end.

Fixpoint parseMembers (fuel : nat) (s : jsstring)
    (acc : list (jsstring * Value)) : option (list (jsstring * Value)) :=
  match fuel with
  | O => None
  | S fuel =>
      match s with
      | 34 :: r =>
          match untilQuote r with
          | Some (k, 58 :: r2) =>
              match parseAtom r2 with
              | Some (v, 44 :: r3) => parseMembers fuel r3 (acc ++ [(k, v)])
              | Some (v, [125]) => Some (acc ++ [(k, v)])
              | _ => None
              end
          | _ => None
          end
      | _ => None
      end
  end.

Definition parse (s : jsstring) : option Value :=
  match s with
  | [123; 125] => Some (VObj [])
  | 123 :: r => VObj <$> parseMembers (length r) r []
  | [110; 117; 108; 108] => Some VNull
  | _ => None
  end.

#[local] Instance host : Host := {|
  CryptoKey := N;
  hasWebCrypto := true;
  subtle_deriveKey := deriveKey;
  subtle_encrypt := encrypt;
  subtle_decrypt := decrypt;
  subtle_digest := digest;
  JSON_stringify := stringify;
  JSON_parse := parse
|}.

(** The same host without [crypto.subtle]. *)
Definition bare : Host := {|
  CryptoKey := N;
  hasWebCrypto := false;
  subtle_deriveKey := deriveKey;
  subtle_encrypt := encrypt;
  subtle_decrypt := decrypt;
  subtle_digest := digest;
  JSON_stringify := stringify;
  JSON_parse := parse
|}.

Definition opts (password : string) : Crypto.EncryptTextOptions :=
  {| Crypto.password := str password; Crypto.note := None;
     Crypto.iterations := None |}.


(** Random bytes and a date to encrypt with. *)
Definition salt0 : bytes :=
  map JS.byteOf [1; 2; 3; 4; 5; 6; 7; 8; 9; 10; 11; 12; 13; 14; 15; 16].
Definition iv0 : bytes :=
  map JS.byteOf [21; 22; 23; 24; 25; 26; 27; 28; 29; 30; 31; 32].
Definition now0 : jsstring := str "2025-01-01T00:00:00.000Z".

(** A token of this host, [encryptText("hello world", {password:
    "correct-horse"})] with the salt, IV and date above. *)
Definition token0 : jsstring :=
  str ("PASCO1.eyJ2IjoxLCJhbGciOiJBRVMtMjU2LUdDTSIsImtkZiI6IlBCS0RGMi1TSEEyNT"
       ++ "YiLCJpdGVyIjoyMjAwMDAsInNhbHQiOiJBUUlEQkFVR0J3Z0pDZ3NNRFE0UEVBIiwia"
       ++ "XYiOiJGUllYR0JrYUd4d2RIaDhnIiwiY3JlYXRlZEF0IjoiMjAyNS0wMS0wMVQwMDow"
       ++ "MDowMC4wMDBaIiwia2luZCI6InRleHQifQ.ZmhlbGxvIHdvcmxk").

(** Its ciphertext: the tag, then the text. *)
Definition ciphertext0 : bytes :=
  map JS.byteOf [102; 104; 101; 108; 108; 111; 32; 119; 111; 114; 108; 100].



(** A token whose header is the empty object. *)
Definition emptyHeaderToken : jsstring := str "PASCO1.e30.AAAA".

(** A token whose header has the kind ["banana"], for the key
    ["correct-horse"] and the bytes 1, 2, 3. *)
Definition bananaToken : jsstring :=
  str ("PASCO1.eyJ2IjoxLCJhbGciOiJBRVMtMjU2LUdDTSIsImtkZiI6IlBCS0RGMi1TSEEyNT"
       ++ "YiLCJpdGVyIjo1MDAwMCwic2FsdCI6IkFRSURCQVVHQndnSkNnc01EUTRQRUEiLCJpd"
       ++ "iI6IkZSWVhHQmthR3h3ZEhoOGciLCJraW5kIjoiYmFuYW5hIn0.VgECAw").

(** A file whose type the browser does not know. *)
Definition file0 : Crypto.File :=
  {| Crypto.name := str "a.bin"; Crypto.type := [];
     Crypto.content := map JS.byteOf [1; 2; 3] |}.

(** A file with a type. *)
Definition file1 : Crypto.File :=
  {| Crypto.name := str "a.png"; Crypto.type := str "image/png";
     Crypto.content := map JS.byteOf [137; 80; 78; 71] |}.

(** The page as it is first shown, and with the counter of [token0] at
    the maximum. *)
Definition page0 : CryptoLab.Page :=
  {| CryptoLab.tokenToDecrypt := []; CryptoLab.decPassword := [];
     CryptoLab.decryptedText := []; CryptoLab.decryptedFileBytes := None;
     CryptoLab.decryptedFileMeta := None; CryptoLab.history := [];
     CryptoLab.attempts := ∅; CryptoLab.log := [] |}.

Definition lockedPage : CryptoLab.Page :=
  CryptoLab.saveAttemptsMap {[ str "c20c" := 5%Z ]} page0.

(** What decrypting [token0] with its key returns. *)
Definition result0 : Crypto.DecryptResult :=
  Crypto.TextResult
    (Crypto.definedProps
       (Crypto.textHeader (opts "correct-horse") salt0 iv0 now0))
    (str "hello world") (str "c20c").

(** The page with [token0] and its key typed in, the counter of the
    token at five. *)
Definition lockedAttempt : CryptoLab.Page :=
  CryptoLab.fill token0 (str "correct-horse") lockedPage.

(** The page with the token of the empty header and a key typed in. *)
Definition emptyHeaderAttempt : CryptoLab.Page :=
  CryptoLab.fill emptyHeaderToken (str "x") page0.

(** A header nobody encrypted with: one PBKDF2 round, and a file name
    and a size of its own; and the bytes 1, 2, 3 under the key this header
    and ["correct-horse"] lead to. *)
Definition forgedHeader : Value :=
  VObj [(str "v", VNum 1);
        (str "alg", VStr (str "AES-256-GCM"));
        (str "kdf", VStr (str "PBKDF2-SHA256"));
        (str "iter", VNum 1);
        (str "salt", VStr (str "AQIDBAUGBwgJCgsMDQ4PEA"));
        (str "iv", VStr (str "FRYXGBkaGxwdHh8g"));
        (str "kind", VStr (str "file"));
        (str "filename", VStr (str "invoice.pdf"));
        (str "size", VNum 999)].

Definition forgedCiphertext : bytes :=
  match deriveKey (str "correct-horse") salt0 (VNum 1) with
  | Some key => encrypt key iv0 (map JS.byteOf [1; 2; 3])
  | None => []
  end.

(** The encrypt form with a text, a key and a file in it, on the page as
    it is first shown and on the page with the counter of [token0] at
    five. *)
Definition form0 : Handlers.EncryptForm :=
  {| Handlers.plainText := str "hello world";
     Handlers.encPassword := str "correct-horse";
     Handlers.encNote := [];
     Handlers.fileToEncrypt := Some file1;
     Handlers.encryptedToken := [] |}.


Definition lockedLab : Handlers.Lab :=
  {| Handlers.form := form0; Handlers.page := lockedPage |}.

(** Options with a note that has white space around it, and what
    [encryptText] returns for ["hello world"] under given options. *)
Definition notedOpts : Crypto.EncryptTextOptions :=
  {| Crypto.password := str "correct-horse";
     Crypto.note := Some (str " backup  ");
     Crypto.iterations := None |}.

Definition encryptedWith (o : Crypto.EncryptTextOptions) : Crypto.Encrypted :=
  match fst (Crypto.encryptText (str "hello world") o salt0 iv0 now0) with
  | Ok e => e
  | Throw _ => {| Crypto.token := []; Crypto.encHeader := VUndefined;
                  Crypto.encFingerprint := [] |}
  end.

(** A [localStorage] that is empty and takes every write. *)
Definition storage0 : Storage.LocalStorage :=
  {| Storage.items := ∅; Storage.readable := true;
     Storage.accepts := fun _ _ => true |}.

Definition emptyHeaderLab : Handlers.Lab :=
  {| Handlers.form := form0; Handlers.page := emptyHeaderAttempt |}.

End TestHost.

(** * Properties *)

Ltac Zify.zify_post_hook ::= Z.to_euclidean_division_equations.

(** Case analysis on every comparison of the goal. *)
Ltac ncases :=
  repeat match goal with
    | |- context [N.ltb ?a ?b] => destruct (N.ltb_spec a b)
    | |- context [N.leb ?a ?b] => destruct (N.leb_spec a b)
    | |- context [N.eqb ?a ?b] => destruct (N.eqb_spec a b)
    end; simpl; try reflexivity; try lia.

(** Boolean comparisons of the context turned into arithmetic. *)
Ltac boolN :=
  repeat first
    [ progress rewrite ?orb_true_iff, ?andb_true_iff, ?orb_false_iff,
        ?andb_false_iff, ?negb_true_iff, ?negb_false_iff, ?N.leb_le,
        ?N.ltb_lt, ?N.eqb_eq, ?N.leb_gt, ?N.ltb_ge, ?N.eqb_neq in * ].

(** ** The model on known values *)

Example btoa_hello :
  JS.btoa (str "hello") = Ok (str "aGVsbG8=").
Proof. reflexivity. Qed.

Example atob_hello :
  JS.atob (str "aGVsbG8=") = Ok (str "hello").
Proof. reflexivity. Qed.

Example utf8_euro :
  JS.TextEncoder_encode [0x20AC; 0xD83D; 0xDE00; 0xE9]
  = map JS.byteOf [0xE2; 0x82; 0xAC; 0xF0; 0x9F; 0x98; 0x80; 0xC3; 0xA9].
Proof. reflexivity. Qed.

Example utf8_back :
  JS.TextDecoder_decode (JS.TextEncoder_encode [0x20AC; 0xD83D; 0xDE00; 0xE9])
  = [0x20AC; 0xD83D; 0xDE00; 0xE9].
Proof. reflexivity. Qed.

Example utf8_bom :
  JS.TextDecoder_decode (JS.TextEncoder_encode (0xFEFF :: str "a")) = str "a".
Proof. reflexivity. Qed.

Example utf8_lone_surrogate :
  JS.TextDecoder_decode (JS.TextEncoder_encode [0x61; 0xD800; 0x62])
  = [0x61; 0xFFFD; 0x62].
Proof. reflexivity. Qed.

Example utf8_overlong :
  JS.TextDecoder_decode (map JS.byteOf [0xC0; 0x80; 0xE0; 0x80; 0x41; 0xED; 0xA0; 0x80])
  = [0xFFFD; 0xFFFD; 0xFFFD; 0xFFFD; 0x41; 0xFFFD; 0xFFFD; 0xFFFD].
Proof. reflexivity. Qed.

Lemma list_ind3 {A} (P : list A -> Prop) :
  P [] -> (forall a, P [a]) -> (forall a b, P [a; b]) ->
  (forall a b c r, P r -> P (a :: b :: c :: r)) ->
  forall l, P l.
Proof.
  intros H0 H1 H2 H3. fix IH 1.
  intros [|a [|b [|c r]]]; [apply H0 | apply H1 | apply H2 | apply H3, IH].
Qed.

(** ** Bytes and code units *)

Lemma to_N_byteOf n : n < 256 -> Byte.to_N (JS.byteOf n) = n.
Proof.
  intros Hn. unfold JS.byteOf.
  destruct (Byte.of_N n) eqn:E.
  - now apply Byte.to_of_N.
  - apply Byte.of_N_None_iff in E. lia.
Qed.

Lemma byteOf_to_N b : JS.byteOf (Byte.to_N b) = b.
Proof. unfold JS.byteOf. now rewrite Byte.of_to_N. Qed.

Lemma to_N_lt b : Byte.to_N b < 256.
Proof. pose proof (Byte.to_N_bounded b). lia. Qed.

Lemma Forall_to_N_lt (b : bytes) : Forall (fun n => n < 256) (map Byte.to_N b).
Proof. induction b; constructor; auto using to_N_lt. Qed.

(** ** Base64 *)

Module B64.
Import JS.

Lemma b64enc_sextets l : b64enc l = map b64char (sextets l) ++ padOf l.
Proof.
  induction l as [|a|a b|a b c r IH] using list_ind3; try reflexivity.
  simpl. now rewrite IH.
Qed.

Lemma sextets_lt l :
  Forall (fun n => n < 256) l -> Forall (fun d => d < 64) (sextets l).
Proof.
  induction l as [|a|a b|a b c r IH] using list_ind3; intros Hl; simpl.
  - constructor.
  - inversion_clear Hl. repeat constructor; lia.
  - inversion_clear Hl as [|? ? ? Hb]. inversion_clear Hb.
    repeat constructor; lia.
  - inversion_clear Hl as [|? ? ? Hb]. inversion_clear Hb as [|? ? ? Hc].
    inversion_clear Hc. repeat (constructor; [lia|]). auto.
Qed.

Lemma b64dec_sextets l : Forall (fun n => n < 256) l -> b64dec (sextets l) = l.
Proof.
  induction l as [|a|a b|a b c r IH] using list_ind3; intros Hl; simpl.
  - reflexivity.
  - inversion_clear Hl. repeat f_equal; lia.
  - inversion_clear Hl as [|? ? ? Hb]. inversion_clear Hb.
    repeat f_equal; lia.
  - inversion_clear Hl as [|? ? ? Hb]. inversion_clear Hb as [|? ? ? Hc].
    inversion_clear Hc. rewrite IH by assumption.
    repeat f_equal; lia.
Qed.

Lemma length_sextets l :
  (length (sextets l) mod 4 <> 1)%nat.
Proof.
  induction l as [|a|a b|a b c r IH] using list_ind3;
    cbn [sextets length]; lia.
Qed.

Lemma b64val_b64char d : d < 64 -> b64val (b64char d) = Some d.
Proof.
  intros Hd. unfold b64val, b64char.
  destruct (N.ltb_spec d 26);
    [|destruct (N.ltb_spec d 52);
      [|destruct (N.ltb_spec d 62); [|destruct (N.eqb_spec d 62)]]].
  - replace ((65 <=? 65 + d) && (65 + d <=? 90)) with true
      by (symmetry; boolN; lia).
    f_equal; lia.
  - replace ((65 <=? 97 + (d - 26)) && (97 + (d - 26) <=? 90)) with false
      by (symmetry; boolN; lia).
    replace ((97 <=? 97 + (d - 26)) && (97 + (d - 26) <=? 122)) with true
      by (symmetry; boolN; lia).
    f_equal; lia.
  - replace ((65 <=? 48 + (d - 52)) && (48 + (d - 52) <=? 90)) with false
      by (symmetry; boolN; lia).
    replace ((97 <=? 48 + (d - 52)) && (48 + (d - 52) <=? 122)) with false
      by (symmetry; boolN; lia).
    replace ((48 <=? 48 + (d - 52)) && (48 + (d - 52) <=? 57)) with true
      by (symmetry; boolN; lia).
    f_equal; lia.
  - subst d. reflexivity.
  - assert (d = 63) by lia. subst d. reflexivity.
Qed.

Lemma b64vals_map ds :
  Forall (fun d => d < 64) ds -> b64vals (map b64char ds) = Some ds.
Proof.
  induction 1 as [|d ds Hd _ IH]; simpl; [reflexivity|].
  now rewrite b64val_b64char, IH.
Qed.

Lemma b64vals_chars s vs :
  b64vals s = Some vs ->
  Forall (fun c => isAsciiWhitespace c = false /\ c <> eqSign) s.
Proof.
  revert vs. induction s as [|c s IH]; intros vs Hs; [constructor|].
  simpl in Hs. destruct (b64val c) eqn:Hc; [|discriminate].
  destruct (b64vals s) eqn:Hr; [|discriminate].
  constructor; [|eauto].
  revert Hc. unfold b64val, isAsciiWhitespace, eqSign.
  destruct ((65 <=? c) && (c <=? 90)) eqn:E1;
    [|destruct ((97 <=? c) && (c <=? 122)) eqn:E2;
      [|destruct ((48 <=? c) && (c <=? 57)) eqn:E3;
        [|destruct (c =? 43) eqn:E4; [|destruct (c =? 47) eqn:E5]]]];
    intros; try discriminate; split; boolN; lia.
Qed.

Lemma filter_all {A} (f : A -> bool) l :
  Forall (fun x => f x = true) l -> List.filter f l = l.
Proof.
  induction 1 as [|x l Hx _ IH]; simpl; [reflexivity|].
  now rewrite Hx, IH.
Qed.

Lemma Forall_rev_head {A} (P : A -> Prop) l x r :
  Forall P l -> rev l = x :: r -> P x.
Proof.
  intros Hl E. rewrite List.Forall_forall in Hl. apply Hl.
  apply in_rev. rewrite E. now left.
Qed.

Lemma stripPadding_pad s pad :
  Forall (fun c => c <> eqSign) s ->
  pad = [] \/ pad = [eqSign] \/ pad = [eqSign; eqSign] ->
  stripPadding (s ++ pad) = s.
Proof.
  intros Hs Hpad. unfold stripPadding. rewrite rev_app_distr.
  destruct (rev s) as [|x r] eqn:E.
  - apply (f_equal (@rev N)) in E. rewrite rev_involutive in E. subst s.
    destruct Hpad as [->|[->| ->]]; reflexivity.
  - assert (Hx : x <> eqSign)
      by exact (Forall_rev_head (fun c => c <> eqSign) s x r Hs E).
    assert (Hrev : rev (x :: r) = s) by (rewrite <- E; apply rev_involutive).
    destruct Hpad as [->|[->| ->]]; cbn [rev app].
    + rewrite app_nil_r.
      destruct r; destruct (N.eqb_spec x eqSign); try contradiction;
        reflexivity.
    + destruct (N.eqb_spec x eqSign); try contradiction.
      rewrite N.eqb_refl. cbn [andb]. exact Hrev.
    + rewrite N.eqb_refl. cbn [andb]. exact Hrev.
Qed.

(** [atob] on a string of alphabet characters, padded as [fromB64Url]
    pads it. *)
Lemma atob_padded s vs :
  b64vals s = Some vs ->
  (length s mod 4 <> 1)%nat ->
  atob (s ++ slice ((length s + 3) mod 4)%nat (str "===")) = Ok (b64dec vs).
Proof.
  intros Hvs Hlen.
  pose proof (b64vals_chars _ _ Hvs) as Hchars.
  set (pad := slice _ _).
  assert (Hpad : (pad = [] /\ (length s mod 4 = 0)%nat)
                 \/ (pad = [eqSign] /\ (length s mod 4 = 3)%nat)
                 \/ (pad = [eqSign; eqSign] /\ (length s mod 4 = 2)%nat)).
  { subst pad. unfold slice.
    assert (Hc : (length s mod 4 = 0 \/ length s mod 4 = 2
                  \/ length s mod 4 = 3)%nat) by lia.
    destruct Hc as [Hc|[Hc|Hc]].
    - left. replace ((length s + 3) mod 4)%nat with 3%nat by lia. now split.
    - right; right. replace ((length s + 3) mod 4)%nat with 1%nat by lia.
      now split.
    - right; left. replace ((length s + 3) mod 4)%nat with 2%nat by lia.
      now split. }
  unfold atob.
  rewrite filter_all.
  2:{ apply List.Forall_app; split.
      - eapply List.Forall_impl; [|exact Hchars].
        intros c [Hc _]. cbn beta. now rewrite Hc.
      - destruct Hpad as [[-> _]|[[-> _]|[-> _]]]; repeat constructor. }
  assert (Hlen' : N.of_nat (length (s ++ pad)) mod 4 = 0).
  { rewrite length_app.
    destruct Hpad as [[-> ?]|[[-> ?]|[-> ?]]]; cbn [length]; lia. }
  rewrite Hlen'. cbn [N.eqb].
  rewrite stripPadding_pad.
  2:{ eapply List.Forall_impl; [|exact Hchars]. now intros c [_ Hc]. }
  2:{ destruct Hpad as [[-> _]|[[-> _]|[-> _]]]; auto. }
  destruct (N.eqb_spec (N.of_nat (length s) mod 4) 1) as [E|_]; [lia|].
  now rewrite Hvs.
Qed.

Lemma toUrl_app a b : toUrl (a ++ b) = toUrl a ++ toUrl b.
Proof. unfold toUrl, replaceAll. now rewrite !map_app. Qed.

Lemma toUrl_padOf l : toUrl (padOf l) = padOf l.
Proof.
  induction l as [|a|a b|a b c r IH] using list_ind3; try reflexivity.
  exact IH.
Qed.

Lemma padOf_eq l : Forall (fun c => c = eqSign) (padOf l).
Proof.
  induction l as [|a|a b|a b c r IH] using list_ind3;
    cbn [padOf]; repeat constructor; auto.
Qed.

Lemma b64char_cases d :
  65 <= b64char d <= 90 \/ 97 <= b64char d <= 122 \/ 48 <= b64char d <= 57
  \/ b64char d = 43 \/ b64char d = 47.
Proof. unfold b64char. ncases. Qed.

Lemma toUrl_char d :
  isUrlChar (if (if b64char d =? 43 then 45 else b64char d) =? 47 then 95
             else (if b64char d =? 43 then 45 else b64char d)) = true.
Proof.
  pose proof (b64char_cases d) as Hc. revert Hc.
  generalize (b64char d) as c. intros c Hc.
  destruct (N.eqb_spec c 43) as [->|?]; [reflexivity|].
  destruct (N.eqb_spec c 47) as [->|?]; [reflexivity|].
  unfold isUrlChar. boolN. lia.
Qed.

Lemma toUrl_chars ds : Forall (fun c => isUrlChar c = true) (toUrl (map b64char ds)).
Proof.
  unfold toUrl, replaceAll. rewrite !map_map.
  induction ds; constructor; auto using toUrl_char.
Qed.

Lemma fromUrl_toUrl ds : fromUrl (toUrl (map b64char ds)) = map b64char ds.
Proof.
  unfold fromUrl, toUrl, replaceAll. rewrite !map_map.
  apply map_ext. intros d. cbv beta.
  pose proof (b64char_cases d) as Hc. revert Hc.
  generalize (b64char d) as c. intros c Hc.
  destruct (N.eq_dec c 43) as [->|E1]; [reflexivity|].
  destruct (N.eq_dec c 47) as [->|E2]; [reflexivity|].
  assert (E3 : c <> 45) by lia. assert (E4 : c <> 95) by lia.
  apply N.eqb_neq in E1, E2, E3, E4.
  repeat (rewrite E1 || rewrite E2 || rewrite E3 || rewrite E4).
  reflexivity.
Qed.

Lemma isUrlChar_facts c :
  isUrlChar c = true ->
  c <> eqSign /\ c <> 46 /\ isWhiteSpace c = false.
Proof.
  unfold isUrlChar, isWhiteSpace, eqSign. intros Hc.
  repeat split; boolN; lia.
Qed.

Lemma dropWhile_all {A} (p : A -> bool) l r :
  Forall (fun x => p x = true) l -> dropWhile p (l ++ r) = dropWhile p r.
Proof. induction 1 as [|x l Hx _ IH]; simpl; [reflexivity|]. now rewrite Hx. Qed.

Lemma dropWhile_head {A} (p : A -> bool) l :
  match l with [] => True | x :: _ => p x = false end -> dropWhile p l = l.
Proof. destruct l; simpl; [reflexivity|]. now intros ->. Qed.

Lemma dropWhile_none {A} (p : A -> bool) l :
  Forall (fun x => p x = false) l -> dropWhile p l = l.
Proof. intros Hl. apply dropWhile_head. destruct Hl; auto. Qed.

End B64.

(** ** [toB64Url] and [fromB64Url] *)

Section Base64Url.
Import JS B64 Crypto.

Lemma stripTrailingEq_app x e :
  Forall (fun c => c <> eqSign) x -> Forall (fun c => c = eqSign) e ->
  stripTrailingEq (x ++ e) = x.
Proof.
  intros Hx He. unfold stripTrailingEq. rewrite rev_app_distr.
  rewrite dropWhile_all.
  2:{ apply List.Forall_rev. eapply List.Forall_impl; [|exact He].
      intros c ->. apply N.eqb_refl. }
  rewrite dropWhile_none; [apply rev_involutive|].
  apply List.Forall_rev. eapply List.Forall_impl; [|exact Hx].
  intros c Hc. now apply N.eqb_neq.
Qed.

Lemma toB64Url_ok b : toB64Url b = Ok (base64url b).
Proof.
  unfold toB64Url, btoa.
  assert (Hall : forallb (fun c => c <=? 255) (map Byte.to_N b) = true).
  { apply forallb_forall. intros x Hx. apply in_map_iff in Hx.
    destruct Hx as [y [<- _]]. apply N.leb_le, Byte.to_N_bounded. }
  rewrite Hall. cbn [rbind]. f_equal.
  rewrite b64enc_sextets. fold (toUrl (map b64char (sextets (map Byte.to_N b))
                                        ++ padOf (map Byte.to_N b))).
  rewrite toUrl_app, toUrl_padOf. apply stripTrailingEq_app.
  - eapply List.Forall_impl; [|apply toUrl_chars].
    intros c Hc. now apply isUrlChar_facts in Hc.
  - apply padOf_eq.
Qed.

Lemma b64url_chars b : Forall (fun c => isUrlChar c = true) (base64url b).
Proof. apply toUrl_chars. Qed.

Lemma fromB64Url_b64url b : fromB64Url (base64url b) = Ok b.
Proof.
  unfold fromB64Url.
  fold (fromUrl (base64url b)). unfold base64url at 1. rewrite fromUrl_toUrl.
  assert (Hlen : length (base64url b) = length (map b64char (sextets (map Byte.to_N b)))).
  { unfold base64url, toUrl, replaceAll. now rewrite !length_map. }
  rewrite Hlen.
  rewrite (atob_padded _ (sextets (map Byte.to_N b))).
  - cbn [rbind]. f_equal.
    rewrite b64dec_sextets by apply Forall_to_N_lt.
    rewrite map_map. rewrite <- (map_id b) at 2. apply map_ext.
    intros x. rewrite N.mod_small by apply to_N_lt. apply byteOf_to_N.
  - apply b64vals_map, sextets_lt, Forall_to_N_lt.
  - rewrite length_map. apply length_sextets.
Qed.

(** [fromB64Url] inverts [toB64Url] on every byte array. *)
Lemma fromB64Url_toB64Url b :
  exists s, toB64Url b = Ok s /\ fromB64Url s = Ok b.
Proof. exists (base64url b). split; [apply toB64Url_ok | apply fromB64Url_b64url]. Qed.

End Base64Url.

(** ** UTF-8 *)

Module Utf8.
Import JS.

(** Settles the test of the first [if] whose outcome arithmetic decides. *)
Ltac settle :=
  match goal with
  | |- context [if ?b then _ else _] =>
      first [ replace b with true by (symmetry; lia)
            | replace b with false by (symmetry; lia) ]
  end.

(** The steps of the decoder. *)

Lemma utf8Run_ascii b r :
  b <= 0x7F -> utf8Run utf8Init (b :: r) = b :: utf8Run utf8Init r.
Proof.
  intros Hb. cbn [utf8Run utf8Init bytesNeeded N.eqb]. unfold utf8Lead.
  settle. reflexivity.
Qed.

Lemma utf8Run_lead b st r :
  utf8Lead b = ([], st) -> utf8Run utf8Init (b :: r) = utf8Run st r.
Proof.
  intros Hb. cbn [utf8Run utf8Init bytesNeeded N.eqb]. now rewrite Hb.
Qed.

Lemma utf8Lead_two b :
  0xC2 <= b <= 0xDF ->
  utf8Lead b = ([], {| codePoint := b - 0xC0; bytesSeen := 0;
                       bytesNeeded := 1; lowerBoundary := 0x80;
                       upperBoundary := 0xBF |}).
Proof. intros Hb. unfold utf8Lead. do 2 settle. reflexivity. Qed.

Lemma utf8Lead_three b :
  0xE0 <= b <= 0xEF ->
  utf8Lead b = ([], {| codePoint := b - 0xE0; bytesSeen := 0;
                       bytesNeeded := 2;
                       lowerBoundary := if b =? 0xE0 then 0xA0 else 0x80;
                       upperBoundary := if b =? 0xED then 0x9F else 0xBF |}).
Proof. intros Hb. unfold utf8Lead. do 3 settle. reflexivity. Qed.

Lemma utf8Lead_four b :
  0xF0 <= b <= 0xF4 ->
  utf8Lead b = ([], {| codePoint := b - 0xF0; bytesSeen := 0;
                       bytesNeeded := 3;
                       lowerBoundary := if b =? 0xF0 then 0x90 else 0x80;
                       upperBoundary := if b =? 0xF4 then 0x8F else 0xBF |}).
Proof. intros Hb. unfold utf8Lead. do 4 settle. reflexivity. Qed.

Lemma utf8Run_last st b r :
  bytesNeeded st <> 0 -> lowerBoundary st <= b <= upperBoundary st ->
  bytesSeen st + 1 = bytesNeeded st ->
  utf8Run st (b :: r) = codePoint st * 64 + (b - 0x80) :: utf8Run utf8Init r.
Proof.
  intros Hn Hb Hs. cbn [utf8Run]. do 3 settle. reflexivity.
Qed.

Lemma utf8Run_more st b r :
  bytesNeeded st <> 0 -> lowerBoundary st <= b <= upperBoundary st ->
  bytesSeen st + 1 <> bytesNeeded st ->
  utf8Run st (b :: r)
  = utf8Run {| codePoint := codePoint st * 64 + (b - 0x80);
               bytesSeen := bytesSeen st + 1;
               bytesNeeded := bytesNeeded st;
               lowerBoundary := 0x80; upperBoundary := 0xBF |} r.
Proof.
  intros Hn Hb Hs. cbn [utf8Run]. do 3 settle. reflexivity.
Qed.

Ltac state :=
  cbn [bytesNeeded bytesSeen codePoint lowerBoundary upperBoundary].

Lemma utf8Run_scalar c rest :
  isScalar c ->
  utf8Run utf8Init (map Byte.to_N (utf8Bytes c) ++ rest)
  = c :: utf8Run utf8Init rest.
Proof.
  intros [Hmax Hsur]. unfold utf8Bytes.
  destruct (N.ltb_spec c 0x80) as [H1|H1];
    [|destruct (N.ltb_spec c 0x800) as [H2|H2];
      [|destruct (N.ltb_spec c 0x10000) as [H3|H3]]];
    cbn [map app]; rewrite ?to_N_byteOf by lia.
  - apply utf8Run_ascii. lia.
  - rewrite (utf8Run_lead _ _ _ (utf8Lead_two (192 + c / 64) ltac:(lia))).
    rewrite utf8Run_last by (state; lia). state. f_equal. lia.
  - rewrite (utf8Run_lead _ _ _ (utf8Lead_three (224 + c / 4096) ltac:(lia))).
    destruct (N.eqb_spec (224 + c / 4096) 224) as [E|E];
      destruct (N.eqb_spec (224 + c / 4096) 237) as [E'|E'];
      try lia;
      (rewrite utf8Run_more by (state; lia));
      (rewrite utf8Run_last by (state; lia));
      state; f_equal; lia.
  - rewrite (utf8Run_lead _ _ _ (utf8Lead_four (240 + c / 262144) ltac:(lia))).
    destruct (N.eqb_spec (240 + c / 262144) 240) as [E|E];
      destruct (N.eqb_spec (240 + c / 262144) 244) as [E'|E'];
      try lia;
      (rewrite utf8Run_more by (state; lia));
      (rewrite utf8Run_more by (state; lia));
      (rewrite utf8Run_last by (state; lia));
      state; f_equal; lia.
Qed.

Lemma utf8Run_scalars cps :
  Forall isScalar cps ->
  utf8Run utf8Init (map Byte.to_N (flat_map utf8Bytes cps)) = cps.
Proof.
  induction 1 as [|c cps Hc _ IH]; [reflexivity|].
  cbn [flat_map]. rewrite map_app, utf8Run_scalar by assumption.
  now rewrite IH.
Qed.

(** What [toScalars] does to a well-formed string. *)
Lemma toScalars_wellFormed s :
  isWellFormed s = true ->
  Forall isScalar (toScalars s) /\ fromScalars (toScalars s) = s.
Proof.
  revert s. fix IH 1. intros [|c r] Hwf; [split; [constructor|reflexivity]|].
  cbn [isWellFormed toScalars] in *.
  destruct (isHighSurrogate c) eqn:Hh.
  - destruct r as [|d r']; [discriminate|].
    apply andb_true_iff in Hwf. destruct Hwf as [Hl Hwf]. rewrite Hl.
    destruct (IH r' Hwf) as [IH1 IH2].
    unfold isHighSurrogate, isLowSurrogate in Hh, Hl.
    split.
    + constructor; [|exact IH1]. unfold isScalar. boolN. lia.
    + cbn [fromScalars flat_map]. fold (fromScalars (toScalars r')).
      rewrite IH2. unfold fromScalar. settle.
      cbn [app]. boolN. repeat f_equal; lia.
  - apply andb_true_iff in Hwf. destruct Hwf as [Hc Hwf].
    apply andb_true_iff in Hc. destruct Hc as [Hl Hc].
    apply negb_true_iff in Hl. rewrite Hl.
    destruct (IH r Hwf) as [IH1 IH2].
    unfold isHighSurrogate, isLowSurrogate in Hh, Hl.
    split.
    + constructor; [|exact IH1]. unfold isScalar. boolN. lia.
    + cbn [fromScalars flat_map]. fold (fromScalars (toScalars r)).
      rewrite IH2. unfold fromScalar. rewrite Hc. reflexivity.
Qed.

(** The first scalar value is U+FEFF only when the first code unit is. *)
Lemma toScalars_head s :
  startsWith s [0xFEFF] = false -> dropBOM (toScalars s) = toScalars s.
Proof.
  destruct s as [|c r]; [reflexivity|].
  intros Hc. assert (Hc' : (0xFEFF =? c) = false).
  { revert Hc. cbn [startsWith]. now rewrite andb_true_r. }
  clear Hc. rename Hc' into Hc.
  cbn [toScalars].
  destruct (isHighSurrogate c) eqn:Hh.
  - destruct r as [|d r']; [reflexivity|].
    destruct (isLowSurrogate d) eqn:Hl; [|reflexivity].
    unfold dropBOM. unfold isHighSurrogate, isLowSurrogate in Hh, Hl.
    settle. reflexivity.
  - destruct (isLowSurrogate c) eqn:Hl; [reflexivity|].
    unfold dropBOM. rewrite N.eqb_sym, Hc. reflexivity.
Qed.

(** [TextDecoder] reads back what [TextEncoder] wrote from a well-formed
    string that does not start with U+FEFF. *)
Lemma utf8_roundtrip s :
  isWellFormed s = true -> startsWith s [0xFEFF] = false ->
  TextDecoder_decode (TextEncoder_encode s) = s.
Proof.
  intros Hwf Hbom. unfold TextDecoder_decode, TextEncoder_encode.
  destruct (toScalars_wellFormed s Hwf) as [Hsc Hback].
  now rewrite utf8Run_scalars, toScalars_head.
Qed.

(** A leading U+FEFF does not survive. *)
Lemma utf8_bom_dropped s :
  isWellFormed s = true -> startsWith s [0xFEFF] = false ->
  TextDecoder_decode (TextEncoder_encode (0xFEFF :: s)) = s.
Proof.
  intros Hwf Hbom. unfold TextDecoder_decode, TextEncoder_encode.
  destruct (toScalars_wellFormed s Hwf) as [Hsc Hback].
  change (toScalars (0xFEFF :: s)) with (0xFEFF :: toScalars s).
  rewrite utf8Run_scalars.
  - cbn [dropBOM N.eqb Pos.eqb]. exact Hback.
  - constructor; [|exact Hsc]. unfold isScalar. lia.
Qed.

End Utf8.

(** ** The two readers of a token *)

Section Readers.
Context {host : Host}.
Import Crypto.

Lemma decryptToken_parse token pw :
  decryptToken token pw =
  if hasWebCrypto then
    match parseToken token with
    | Ok (h, salt, iv, ct, iter) => decryptParsed pw h salt iv ct iter
    | Throw e => (Throw e, [])
    end
  else (Throw (Error "WebCrypto is not available in this environment."), []).
Proof.
  unfold decryptToken, parseToken, decryptParsed, assertWebCrypto, deriveKey,
    sha256Hex, assertWebCrypto.
  destruct hasWebCrypto; [|reflexivity].
  cbn [bind ret throw lift perform app].
  destruct (negb (JS.startsWith (JS.trim token) PREFIX)); [reflexivity|].
  destruct (negb (length (JS.split DOT (JS.trim token)) =? 3)%nat); [reflexivity|].
  destruct (unpackHeader _) as [h|e]; [|reflexivity].
  cbn [bind ret throw lift perform app rbind].
  destruct (getProp h "v") as [v|e] eqn:Hv; [|reflexivity].
  cbn [bind ret throw lift perform app rbind].
  destruct (negb (isNum v 1)) eqn:Hv1; [reflexivity|].
  destruct h as [| |b|n|s|items|props|n bits| |negative]; try discriminate;
    try (cbn in Hv; injection Hv as <-; discriminate).
  cbn [getProp bind ret throw lift perform app rbind headerProp].
  destruct (negb (isStr _ "AES-256-GCM")); [reflexivity|].
  destruct (negb (isStr _ "PBKDF2-SHA256")); [reflexivity|].
  destruct (let? s := asString (lookupProp (str "salt") props) in fromB64Url s)%result as [salt|e]; [|reflexivity].
  cbn [bind ret throw lift perform app rbind].
  destruct (let? s := asString (lookupProp (str "iv") props) in fromB64Url s)%result as [iv|e]; [|reflexivity].
  cbn [bind ret throw lift perform app rbind].
  destruct (fromB64Url _) as [ct|e]; [|reflexivity].
  cbn [bind ret throw lift perform app rbind].
  destruct (subtle_deriveKey _ _ _) as [key|]; [|reflexivity].
  cbn [bind ret throw lift perform app rbind].
  destruct (subtle_decrypt _ _ _) as [pt|]; [|reflexivity].
  cbn [bind ret throw lift perform app rbind].
  destruct (isStr _ "text"); reflexivity.
Qed.

Lemma fingerprintFromToken_parse token :
  fingerprintFromToken token =
  if hasWebCrypto then
    match parseCiphertext token with
    | Ok ct => (Ok (fingerprintOf ct), [OpDigest ct])
    | Throw e => (Throw e, [])
    end
  else (Throw (Error "WebCrypto is not available in this environment."), []).
Proof.
  unfold fingerprintFromToken, parseCiphertext, fingerprintOf, sha256Hex,
    assertWebCrypto.
  destruct hasWebCrypto; [|reflexivity].
  cbn [bind ret throw lift perform app].
  destruct (negb (JS.startsWith (JS.trim token) PREFIX)); [reflexivity|].
  destruct (negb (length (JS.split DOT (JS.trim token)) =? 3)%nat); [reflexivity|].
  destruct (fromB64Url _) as [ct|e]; reflexivity.
Qed.

(** A token [decryptToken] accepts up to its first WebCrypto call is one
    whose ciphertext [fingerprintFromToken] reads. *)
Lemma parseToken_ciphertext token h salt iv ct iter :
  parseToken token = Ok (h, salt, iv, ct, iter) ->
  parseCiphertext token = Ok ct.
Proof.
  unfold parseToken, parseCiphertext.
  destruct (negb (JS.startsWith (JS.trim token) PREFIX)); [discriminate|].
  destruct (negb (length (JS.split DOT (JS.trim token)) =? 3)%nat); [discriminate|].
  destruct (unpackHeader _) as [h'|e]; [|discriminate].
  cbn [rbind].
  destruct (getProp h' "v") as [v|e]; [|discriminate]. cbn [rbind].
  destruct (negb (isNum v 1)); [discriminate|].
  destruct (getProp h' "alg") as [alg|e]; [|discriminate]. cbn [rbind].
  destruct (negb (isStr alg _)); [discriminate|].
  destruct (getProp h' "kdf") as [kdf|e]; [|discriminate]. cbn [rbind].
  destruct (negb (isStr kdf _)); [discriminate|].
  destruct (let? s := getProp h' "salt" in _)%result; [|discriminate].
  cbn [rbind].
  destruct (let? s := getProp h' "iv" in _)%result; [|discriminate].
  cbn [rbind].
  destruct (fromB64Url _) as [ct'|e]; [|discriminate]. cbn [rbind].
  destruct (getProp h' "iter"); [|discriminate]. cbn [rbind].
  now intros [= _ _ _ -> _].
Qed.

End Readers.

(** ** [trim] *)

Module Trim.
Import JS B64.

Lemma trimEnd_app_ws s ws :
  Forall (fun c => isWhiteSpace c = true) ws -> trimEnd (s ++ ws) = trimEnd s.
Proof.
  intros Hws. unfold trimEnd. rewrite rev_app_distr.
  rewrite dropWhile_all; [reflexivity|]. now apply List.Forall_rev.
Qed.

Lemma trim_app_ws s ws :
  Forall (fun c => isWhiteSpace c = true) ws -> trim (s ++ ws) = trim s.
Proof.
  intros Hws. unfold trim, trimStart.
  induction s as [|c s IH]; cbn [app dropWhile].
  - rewrite <- (app_nil_r ws) at 1. rewrite dropWhile_all by assumption.
    reflexivity.
  - destruct (isWhiteSpace c); [exact IH|].
    exact (trimEnd_app_ws (c :: s) ws Hws).
Qed.

Lemma trim_ws_app ws s :
  Forall (fun c => isWhiteSpace c = true) ws -> trim (ws ++ s) = trim s.
Proof.
  intros Hws. unfold trim, trimStart. now rewrite dropWhile_all.
Qed.

(** [trim] ignores white space around a string. *)
Lemma trim_surrounded ws1 s ws2 :
  Forall (fun c => isWhiteSpace c = true) ws1 ->
  Forall (fun c => isWhiteSpace c = true) ws2 ->
  trim (ws1 ++ s ++ ws2) = trim s.
Proof.
  intros H1 H2. now rewrite trim_ws_app, trim_app_ws.
Qed.

Lemma dropWhile_app {A} (p : A -> bool) a b :
  dropWhile p (a ++ b)
  = match dropWhile p a with
    | [] => dropWhile p b
    | t => t ++ b
    end.
Proof.
  induction a as [|x a IH]; cbn [app dropWhile]; [reflexivity|].
  destruct (p x); [exact IH|reflexivity].
Qed.

Lemma trimEnd_cons c s :
  trimEnd (c :: s)
  = match trimEnd s with
    | [] => if isWhiteSpace c then [] else [c]
    | t => c :: t
    end.
Proof.
  unfold trimEnd. cbn [rev]. rewrite dropWhile_app.
  destruct (dropWhile isWhiteSpace (rev s)) as [|x r] eqn:E.
  - cbn [dropWhile rev]. now destruct (isWhiteSpace c).
  - cbn [rev app]. rewrite rev_app_distr. cbn [rev app].
    destruct (rev r ++ [x]) eqn:E'; [|reflexivity].
    now apply app_eq_nil in E' as [_ ?].
Qed.

Lemma trimEnd_idempotent s : trimEnd (trimEnd s) = trimEnd s.
Proof.
  induction s as [|c s IH]; [reflexivity|].
  rewrite trimEnd_cons. destruct (trimEnd s) as [|x t] eqn:E.
  - destruct (isWhiteSpace c) eqn:Hc; [reflexivity|].
    rewrite trimEnd_cons. cbn. now rewrite Hc.
  - rewrite trimEnd_cons, IH. reflexivity.
Qed.

Lemma trimStart_trimEnd s :
  trimStart s = s -> trimStart (trimEnd s) = trimEnd s.
Proof.
  destruct s as [|c s]; [reflexivity|].
  unfold trimStart. cbn [dropWhile]. intros Hc.
  assert (Hws : isWhiteSpace c = false).
  { destruct (isWhiteSpace c); [|reflexivity].
    exfalso. clear -Hc.
    assert (Hlen : (length (dropWhile isWhiteSpace s) <= length s)%nat).
    { clear Hc. induction s as [|x s IH]; cbn; [lia|].
      destruct (isWhiteSpace x); cbn; lia. }
    rewrite Hc in Hlen. cbn in Hlen. lia. }
  rewrite trimEnd_cons.
  destruct (trimEnd s); rewrite ?Hws; cbn [dropWhile]; now rewrite Hws.
Qed.

Lemma trimStart_idempotent s : trimStart (trimStart s) = trimStart s.
Proof.
  unfold trimStart. induction s as [|c s IH]; [reflexivity|].
  cbn [dropWhile]. destruct (isWhiteSpace c) eqn:Hc; [exact IH|].
  cbn [dropWhile]. now rewrite Hc.
Qed.

(** [trim] of a trimmed string does nothing. *)
Lemma trim_idempotent s : trim (trim s) = trim s.
Proof.
  unfold trim.
  rewrite (trimStart_trimEnd (trimStart s)) by apply trimStart_idempotent.
  apply trimEnd_idempotent.
Qed.

End Trim.


(** ** Tokens *)

Module Split.
Import JS B64.

Lemma split_plain sep s :
  Forall (fun c => c <> sep) s -> split sep s = [s].
Proof.
  induction 1 as [|c s Hc _ IH]; [reflexivity|].
  cbn [split]. apply N.eqb_neq in Hc. now rewrite Hc, IH.
Qed.

Lemma split_app sep a r :
  Forall (fun c => c <> sep) a -> split sep (a ++ sep :: r) = a :: split sep r.
Proof.
  induction 1 as [|c s Hc _ IH]; cbn [split app].
  - now rewrite N.eqb_refl.
  - apply N.eqb_neq in Hc. now rewrite Hc, IH.
Qed.

Lemma urlChars_no_dot s :
  Forall (fun c => isUrlChar c = true) s -> Forall (fun c => c <> 46) s.
Proof.
  apply List.Forall_impl. intros c Hc. now apply isUrlChar_facts in Hc.
Qed.

Lemma urlChars_no_ws s :
  Forall (fun c => isUrlChar c = true) s ->
  Forall (fun c => isWhiteSpace c = false) s.
Proof.
  apply List.Forall_impl. intros c Hc. now apply isUrlChar_facts in Hc.
Qed.

End Split.

Section Tokens.
Context {host : Host}.
Import JS B64 Split Crypto.

(** The shape of a token: the prefix and two segments in the URL-safe
    alphabet. *)
Lemma trim_token a b :
  Forall (fun c => isUrlChar c = true) a ->
  Forall (fun c => isUrlChar c = true) b ->
  trim (PREFIX ++ a ++ [DOT] ++ b) = PREFIX ++ a ++ [DOT] ++ b.
Proof.
  intros Ha Hb. unfold trim, trimStart.
  rewrite (dropWhile_head _ (PREFIX ++ _)) by reflexivity.
  unfold trimEnd. rewrite dropWhile_head; [apply rev_involutive|].
  rewrite !rev_app_distr.
  destruct (rev b) as [|x r] eqn:E; [reflexivity|].
  cbn [app].
  exact (Forall_rev_head _ b x r (urlChars_no_ws b Hb) E).
Qed.

Lemma split_token a b :
  Forall (fun c => isUrlChar c = true) a ->
  Forall (fun c => isUrlChar c = true) b ->
  split DOT (PREFIX ++ a ++ [DOT] ++ b) = [str "PASCO1"; a; b].
Proof.
  intros Ha Hb.
  change (PREFIX ++ a ++ [DOT] ++ b)
    with (str "PASCO1" ++ DOT :: (a ++ DOT :: b)).
  rewrite split_app by (repeat constructor; discriminate).
  rewrite split_app by now apply urlChars_no_dot.
  rewrite split_plain by now apply urlChars_no_dot.
  reflexivity.
Qed.

Lemma unpackHeader_packed header :
  jsonRoundTrips header ->
  unpackHeader (base64url (utf8Encode (JSON_stringify header)))
  = Ok (definedProps header).
Proof.
  intros (Hwf & Hbom & Hparse). unfold unpackHeader.
  rewrite fromB64Url_b64url. cbn [rbind]. unfold utf8Decode, utf8Encode.
  rewrite Utf8.utf8_roundtrip by assumption. now rewrite Hparse.
Qed.

(** [decryptToken] reads from the token of a header and a ciphertext what
    was put into it. *)
Lemma parseToken_tokenOf header ct salt iv iter :
  jsonRoundTrips header ->
  getProp (definedProps header) "v" = Ok (VNum 1) ->
  getProp (definedProps header) "alg" = Ok (VStr (str "AES-256-GCM")) ->
  getProp (definedProps header) "kdf" = Ok (VStr (str "PBKDF2-SHA256")) ->
  getProp (definedProps header) "salt" = Ok (VStr (base64url salt)) ->
  getProp (definedProps header) "iv" = Ok (VStr (base64url iv)) ->
  getProp (definedProps header) "iter" = Ok iter ->
  parseToken (tokenOf header ct)
  = Ok (definedProps header, salt, iv, ct, iter).
Proof.
  intros Hjson Hv Halg Hkdf Hsalt Hiv Hiter.
  unfold parseToken, tokenOf.
  rewrite trim_token by apply b64url_chars.
  rewrite split_token by apply b64url_chars.
  cbn [length Nat.eqb negb part nth].
  replace (startsWith _ PREFIX) with true by reflexivity. cbn [negb].
  rewrite unpackHeader_packed by assumption. cbn [rbind].
  rewrite Hv. cbn [rbind isNum Z.eqb Pos.eqb negb].
  rewrite Halg. cbn [rbind].
  replace (isStr _ "AES-256-GCM") with true
    by (symmetry; apply bool_decide_eq_true; reflexivity).
  cbn [negb].
  rewrite Hkdf. cbn [rbind].
  replace (isStr _ "PBKDF2-SHA256") with true
    by (symmetry; apply bool_decide_eq_true; reflexivity).
  cbn [negb].
  rewrite Hsalt, Hiv, Hiter. cbn [rbind asString].
  now rewrite !fromB64Url_b64url.
Qed.

Lemma encryptText_eq text opts salt iv createdAt :
  encryptText text opts salt iv createdAt =
  if hasWebCrypto then
    let n := numberValue (clampIterations (iterations opts) 220000) in
    match subtle_deriveKey (password opts) salt n with
    | None => (Throw OperationError,
               [OpDeriveKey (password opts) salt n])
    | Some key =>
        let header := textHeader opts salt iv createdAt in
        let ct := subtle_encrypt key iv (utf8Encode text) in
        (Ok {| token := tokenOf header ct; encHeader := header;
               encFingerprint := fingerprintOf ct |},
         [OpDeriveKey (password opts) salt n;
          OpEncrypt iv (utf8Encode text); OpDigest ct])
    end
  else (Throw (Error "WebCrypto is not available in this environment."), []).
Proof.
  unfold encryptText, deriveKey, sha256Hex, assertWebCrypto, packHeader.
  destruct hasWebCrypto; [|reflexivity].
  cbn [bind ret throw lift perform app].
  destruct (subtle_deriveKey _ _ _); [|reflexivity].
  cbn [bind ret throw lift perform app].
  rewrite !toB64Url_ok. cbn [bind ret throw lift perform app].
  reflexivity.
Qed.

Lemma encryptFile_eq file opts salt iv createdAt :
  encryptFile file opts salt iv createdAt =
  if hasWebCrypto then
    let n := numberValue (clampIterations (iterations opts) 260000) in
    match subtle_deriveKey (password opts) salt n with
    | None => (Throw OperationError,
               [OpDeriveKey (password opts) salt n])
    | Some key =>
        let header := fileHeader file opts salt iv createdAt in
        let ct := subtle_encrypt key iv (content file) in
        (Ok {| token := tokenOf header ct; encHeader := header;
               encFingerprint := fingerprintOf ct |},
         [OpDeriveKey (password opts) salt n;
          OpEncrypt iv (content file); OpDigest ct])
    end
  else (Throw (Error "WebCrypto is not available in this environment."), []).
Proof.
  unfold encryptFile, deriveKey, sha256Hex, assertWebCrypto, packHeader.
  destruct hasWebCrypto; [|reflexivity].
  cbn [bind ret throw lift perform app].
  destruct (subtle_deriveKey _ _ _); [|reflexivity].
  cbn [bind ret throw lift perform app].
  rewrite !toB64Url_ok. cbn [bind ret throw lift perform app].
  reflexivity.
Qed.

End Tokens.

(** ** Round trips *)

Section RoundTrip.
Context {host : Host}.
Import JS Crypto.




Lemma derivesKeys_acceptsCount password salt n :
  derivesKeys -> (50000 <= n <= 600000)%Z -> acceptsCount password salt (Int n).
Proof. intros Hkeys Hn. exact (Hkeys password salt n Hn). Qed.

Lemma derivesKeys_default password salt fallback :
  derivesKeys -> (50000 <= fallback <= 600000)%Z ->
  acceptsCount password salt (clampIterations None fallback).
Proof.
  intros Hkeys Hn. apply derivesKeys_acceptsCount; [exact Hkeys|lia].
Qed.

Lemma textHeader_props opts salt iv createdAt :
  let h := definedProps (textHeader opts salt iv createdAt) in
  getProp h "v" = Ok (VNum 1)
  /\ getProp h "alg" = Ok (VStr (str "AES-256-GCM"))
  /\ getProp h "kdf" = Ok (VStr (str "PBKDF2-SHA256"))
  /\ getProp h "salt" = Ok (VStr (base64url salt))
  /\ getProp h "iv" = Ok (VStr (base64url iv))
  /\ getProp h "iter"
     = Ok (numberValue (clampIterations (iterations opts) 220000))
  /\ headerProp h "kind" = VStr (str "text").
Proof.
  unfold textHeader, definedProps, headerProp.
  destruct (clampIterations _ _); cbn [List.filter snd numberValue];
    destruct (noteValue (note opts)); repeat split; reflexivity.
Qed.

Lemma fileHeader_props file opts salt iv createdAt :
  let h := definedProps (fileHeader file opts salt iv createdAt) in
  getProp h "v" = Ok (VNum 1)
  /\ getProp h "alg" = Ok (VStr (str "AES-256-GCM"))
  /\ getProp h "kdf" = Ok (VStr (str "PBKDF2-SHA256"))
  /\ getProp h "salt" = Ok (VStr (base64url salt))
  /\ getProp h "iv" = Ok (VStr (base64url iv))
  /\ getProp h "iter"
     = Ok (numberValue (clampIterations (iterations opts) 260000))
  /\ headerProp h "kind" = VStr (str "file")
  /\ headerProp h "filename" = VStr (name file)
  /\ headerProp h "mime" = VStr (mimeOf file)
  /\ headerProp h "size" = VNum (size file).
Proof.
  unfold fileHeader, definedProps, headerProp.
  destruct (clampIterations _ _); cbn [List.filter snd numberValue];
    destruct (noteValue (note opts)); repeat split; reflexivity.
Qed.



(** Decrypting, with the password it was made with, the token
    [encryptText] returns gives [TextDecoder] applied to [TextEncoder] of
    the text, under the header as JSON wrote it and with the fingerprint
    [encryptText] returned. *)
Lemma decrypt_encryptText text opts salt iv createdAt :
  hasWebCrypto = true ->
  acceptsCount (password opts) salt
    (clampIterations (iterations opts) 220000) ->
  decryptsOwn ->
  jsonRoundTrips (textHeader opts salt iv createdAt) ->
  exists e ops,
    encryptText text opts salt iv createdAt = (Ok e, ops)
    /\ fst (decryptToken (token e) (password opts))
       = Ok (TextResult (definedProps (encHeader e))
               (utf8Decode (utf8Encode text)) (encFingerprint e)).
Proof.
  intros Hweb Hkeys Haead Hjson.
  rewrite encryptText_eq, Hweb. cbv zeta.
  destruct Hkeys as [key Hkey]. unfold acceptsCount in Hkey.
  rewrite Hkey. eexists _, _. split; [reflexivity|]. cbn [token encHeader encFingerprint].
  destruct (textHeader_props opts salt iv createdAt)
    as (Hv & Halg & Hkdf & Hsalt & Hiv & Hiter & Hkind).
  rewrite decryptToken_parse, Hweb.
  rewrite (parseToken_tokenOf _ _ salt iv _ Hjson Hv Halg Hkdf Hsalt Hiv Hiter).
  unfold decryptParsed. rewrite Hkey, Haead. cbn [fst].
  rewrite Hkind. reflexivity.
Qed.

End RoundTrip.

(** ** What [decryptToken] throws and returns *)

Section Facts.
Context {host : Host}.
Import JS Crypto.

Lemma fromB64Url_errors s e : fromB64Url s = Throw e -> e = InvalidCharacterError.
Proof.
  unfold fromB64Url, atob.
  repeat match goal with
         | |- context [if ?b then _ else _] => destruct b
         | |- context [match ?x with Some _ => _ | None => _ end] => destruct x
         end; cbn [rbind]; congruence.
Qed.

Lemma unpackHeader_errors s e :
  unpackHeader s = Throw e -> e = InvalidCharacterError \/ e = SyntaxError.
Proof.
  unfold unpackHeader. destruct (fromB64Url s) as [raw|e'] eqn:E; cbn [rbind].
  - destruct (JSON_parse _); [discriminate|]. intros [= <-]. now right.
  - intros [= <-]. left. eauto using fromB64Url_errors.
Qed.

Lemma getProp_errors h k e : getProp h k = Throw e -> e = TypeError.
Proof. destruct h; cbn; congruence. Qed.

Lemma field_errors h k e :
  (let? s := getProp h k in let? s := asString s in fromB64Url s)%result
  = Throw e ->
  e = TypeError \/ e = InvalidCharacterError.
Proof.
  destruct (getProp h k) as [v|e'] eqn:E; cbn [rbind].
  - destruct v; cbn [asString rbind]; try (intros [= <-]; now left).
    intros Hs. right. eauto using fromB64Url_errors.
  - intros [= <-]. left. eauto using getProp_errors.
Qed.

(** Whatever [decryptToken] throws before its first call into WebCrypto is
    a format error. *)
Lemma parseToken_errors token e :
  parseToken token = Throw e -> isFormatError e.
Proof.
  unfold parseToken, isFormatError.
  destruct (negb (startsWith (trim token) PREFIX)); [intros [= <-]; tauto|].
  destruct (negb (length (split DOT (trim token)) =? 3)%nat);
    [intros [= <-]; tauto|].
  destruct (unpackHeader _) as [h|e'] eqn:Eh; cbn [rbind].
  2:{ intros [= <-]. apply unpackHeader_errors in Eh. tauto. }
  destruct (getProp h "v") as [v|e'] eqn:Ev; cbn [rbind].
  2:{ intros [= <-]. apply getProp_errors in Ev. tauto. }
  destruct (negb (isNum v 1)); [intros [= <-]; tauto|].
  destruct (getProp h "alg") as [alg|e'] eqn:Ea; cbn [rbind].
  2:{ intros [= <-]. apply getProp_errors in Ea. tauto. }
  destruct (negb (isStr alg _)); [intros [= <-]; tauto|].
  destruct (getProp h "kdf") as [kdf|e'] eqn:Ek; cbn [rbind].
  2:{ intros [= <-]. apply getProp_errors in Ek. tauto. }
  destruct (negb (isStr kdf _)); [intros [= <-]; tauto|].
  destruct (let? s := getProp h "salt" in _)%result as [salt|e'] eqn:Es;
    cbn [rbind].
  2:{ intros [= <-]. apply field_errors in Es. tauto. }
  destruct (let? s := getProp h "iv" in _)%result as [iv|e'] eqn:Ei;
    cbn [rbind].
  2:{ intros [= <-]. apply field_errors in Ei. tauto. }
  destruct (fromB64Url _) as [ct|e'] eqn:Ec; cbn [rbind].
  2:{ intros [= <-]. apply fromB64Url_errors in Ec. tauto. }
  destruct (getProp h "iter") as [it|e'] eqn:Et; cbn [rbind].
  2:{ intros [= <-]. apply getProp_errors in Et. tauto. }
  discriminate.
Qed.


(** What a successful [decryptToken] went through. *)
Lemma decryptToken_ok token password res ops :
  decryptToken token password = (Ok res, ops) ->
  hasWebCrypto = true
  /\ exists h salt iv ct iter key pt,
       parseToken token = Ok (h, salt, iv, ct, iter)
       /\ subtle_deriveKey password salt iter = Some key
       /\ subtle_decrypt key iv ct = Some pt
       /\ res = (if isStr (headerProp h "kind") "text"
                 then TextResult h (utf8Decode pt) (fingerprintOf ct)
                 else FileResult h pt (fingerprintOf ct))
       /\ ops = [OpDeriveKey password salt iter; OpDecrypt iv ct; OpDigest ct].
Proof.
  rewrite decryptToken_parse.
  destruct hasWebCrypto; [|discriminate].
  destruct (parseToken token) as [[[[[h salt] iv] ct] iter]|e]; [|discriminate].
  unfold decryptParsed.
  destruct (subtle_deriveKey _ _ _) as [key|] eqn:Ek; [|discriminate].
  destruct (subtle_decrypt _ _ _) as [pt|] eqn:Ed; [|discriminate].
  intros [= <- <-]. split; [reflexivity|].
  exists h, salt, iv, ct, iter, key, pt. repeat split; assumption.
Qed.

Lemma decryptToken_ok_fingerprint token password res ops :
  decryptToken token password = (Ok res, ops) ->
  exists ct, parseCiphertext token = Ok ct /\ fingerprint res = fingerprintOf ct
             /\ hasWebCrypto = true.
Proof.
  intros Hd. apply decryptToken_ok in Hd.
  destruct Hd as (Hweb & h & salt & iv & ct & iter & key & pt & Hp & _ & _ & -> & _).
  exists ct. split; [eauto using parseToken_ciphertext|].
  split; [|assumption]. now destruct (isStr _ _).
Qed.


Lemma hexDigit_not_u d : d < 16 -> hexDigit d <> 117.
Proof. unfold hexDigit. destruct (N.ltb_spec d 10); lia. Qed.

(** A fingerprint is never the string ["unknown"]. *)
Lemma fingerprintOf_not_unknown ct : fingerprintOf ct <> str "unknown".
Proof.
  unfold fingerprintOf. destruct (subtle_digest ct) as [|b r]; [discriminate|].
  cbn [flat_map hexByte app]. intros [= Hd _].
  apply (hexDigit_not_u (Byte.to_N b / 16)); [|exact Hd].
  pose proof (to_N_lt b). lia.
Qed.

End Facts.


(** ** The cases of [runDecrypt] *)

Section Lab.
Context {host : Host}.
Import JS Crypto CryptoLab.

Lemma randomUUID_ok : hasWebCrypto = true -> randomUUID = Ok tt.
Proof. unfold randomUUID. now intros ->. Qed.

Lemma decryptToken_web token password res ops :
  decryptToken token password = (Ok res, ops) -> hasWebCrypto = true.
Proof.
  rewrite decryptToken_parse. now destruct hasWebCrypto.
Qed.

Ltac enter_runDecrypt Hf :=
  let Et := fresh "Et" in
  let Ep := fresh "Ep" in
  destruct Hf as [Et Ep]; unfold runDecrypt, runDecrypt_catch;
  destruct (trim (tokenToDecrypt _)) eqn:?; [contradiction|];
  destruct (trim (decPassword _)) eqn:?; [contradiction|].

(** An attempt whose decryption succeeded while the counter of the
    fingerprint is below the maximum. *)
Lemma runDecrypt_success p res ops :
  filled p ->
  decryptToken (trim (tokenToDecrypt p)) (decPassword p) = (Ok res, ops) ->
  (used p (fingerprint res) < maxAttempts)%Z ->
  attempts (runDecrypt p) = <[fingerprint res := 0%Z]> (attempts p)
  /\ log (runDecrypt p)
     = log p ++ map Called ops
       ++ [toast_success (Literal match res with
                                  | TextResult _ _ _ => "Decrypted successfully"
                                  | FileResult _ _ _ =>
                                      "File decrypted successfully"
                                  end)]
  /\ decryptedText (runDecrypt p)
     = match res with TextResult _ t _ => t | FileResult _ _ _ => [] end
  /\ decryptedFileBytes (runDecrypt p)
     = match res with TextResult _ _ _ => None | FileResult _ d _ => Some d end.
Proof.
  intros Hf Hd Hused. enter_runDecrypt Hf.
  cbn [decPassword setDecrypted]. rewrite Hd.
  rewrite (randomUUID_ok (decryptToken_web _ _ _ _ Hd)).
  unfold loadAttemptsMap. cbn [attempts emit setDecrypted].
  unfold used in Hused.
  destruct (Z.leb_spec maxAttempts (default 0%Z (attempts p !! fingerprint res)));
    [lia|].
  destruct res; cbn; rewrite <- ?app_assoc; auto.
Qed.

(** An attempt whose decryption succeeded while the counter of the
    fingerprint has reached the maximum. *)
Lemma runDecrypt_locked p res ops :
  filled p ->
  decryptToken (trim (tokenToDecrypt p)) (decPassword p) = (Ok res, ops) ->
  (maxAttempts <= used p (fingerprint res))%Z ->
  attempts (runDecrypt p) = attempts p
  /\ log (runDecrypt p) = log p ++ map Called ops ++ [LOCKED]
  /\ nothingShown (runDecrypt p).
Proof.
  intros Hf Hd Hused. enter_runDecrypt Hf.
  cbn [decPassword setDecrypted]. rewrite Hd.
  rewrite (randomUUID_ok (decryptToken_web _ _ _ _ Hd)).
  unfold loadAttemptsMap. cbn [attempts emit setDecrypted].
  unfold used in Hused.
  destruct (Z.leb_spec maxAttempts (default 0%Z (attempts p !! fingerprint res)));
    [|lia].
  unfold nothingShown. cbn. rewrite <- ?app_assoc. auto.
Qed.

(** An attempt whose decryption failed, on a token whose fingerprint can
    be computed: the failure is charged to the fingerprint. *)
Lemma runDecrypt_charged p e ops ct :
  filled p ->
  decryptToken (trim (tokenToDecrypt p)) (decPassword p) = (Throw e, ops) ->
  hasWebCrypto = true ->
  parseCiphertext (trim (tokenToDecrypt p)) = Ok ct ->
  let fp := fingerprintOf ct in
  let next := (used p fp + 1)%Z in
  attempts (runDecrypt p) = <[fp := next]> (attempts p)
  /\ log (runDecrypt p)
     = log p ++ map Called ops ++ [Called (OpDigest ct)]
       ++ [if (maxAttempts <=? next)%Z then WRONG_KEY_LOCKED
           else toast_error (AttemptsLeft (maxAttempts - next))]
  /\ nothingShown (runDecrypt p).
Proof.
  intros Hf Hd Hweb Hct fp next. enter_runDecrypt Hf.
  cbn [decPassword setDecrypted]. rewrite Hd.
  rewrite fingerprintFromToken_parse, (randomUUID_ok Hweb), Hweb, Hct.
  fold fp. rewrite bool_decide_eq_true_2 by apply fingerprintOf_not_unknown.
  unfold loadAttemptsMap. cbn [attempts emit setDecrypted saveAttemptsMap].
  fold (used p fp). fold next.
  unfold nothingShown, maxAttempts.
  destruct (Z.leb_spec 5 next).
  - replace (Z.max 0 (5 - next) <=? 0)%Z with true by (symmetry; lia).
    cbn. rewrite <- ?app_assoc. auto.
  - replace (Z.max 0 (5 - next) <=? 0)%Z with false by (symmetry; lia).
    replace (Z.max 0 (5 - next)) with (5 - next)%Z by lia.
    cbn. rewrite <- ?app_assoc. auto.
Qed.

(** An attempt whose decryption failed, on a token whose fingerprint
    cannot be computed: the attempts map is left alone. *)
Lemma runDecrypt_uncharged p e ops e' ops' :
  filled p ->
  decryptToken (trim (tokenToDecrypt p)) (decPassword p) = (Throw e, ops) ->
  fingerprintFromToken (trim (tokenToDecrypt p)) = (Throw e', ops') ->
  attempts (runDecrypt p) = attempts p
  /\ log (runDecrypt p)
     = log p ++ map Called ops ++ map Called ops' ++ [toast_error (MessageOf e)]
  /\ nothingShown (runDecrypt p).
Proof.
  intros Hf Hd Hfp. enter_runDecrypt Hf.
  cbn [decPassword setDecrypted]. rewrite Hd, Hfp.
  rewrite bool_decide_eq_false_2 by (intros Hne; now apply Hne).
  unfold nothingShown, randomUUID.
  destruct hasWebCrypto; cbn; rewrite <- ?app_assoc; auto.
Qed.

Lemma classic_filled p : filled p \/ ~ filled p.
Proof.
  unfold filled.
  destruct (trim (tokenToDecrypt p)); [right; intros [? _]; congruence|].
  destruct (trim (decPassword p)); [right; intros [_ ?]; congruence|].
  left. split; discriminate.
Qed.

(** An attempt that does not start: the form is not filled. *)
Lemma runDecrypt_not_filled p :
  ~ filled p -> attempts (runDecrypt p) = attempts p.
Proof.
  intros Hf. unfold runDecrypt.
  destruct (trim (tokenToDecrypt p)) eqn:Et; [reflexivity|].
  destruct (trim (decPassword p)) eqn:Ep; [reflexivity|].
  exfalso. apply Hf. split; congruence.
Qed.

End Lab.

Example token0_encrypted :
  fst (Crypto.encryptText (host := TestHost.host) (str "hello world")
         (TestHost.opts "correct-horse") TestHost.salt0 TestHost.iv0
         TestHost.now0)
  = Ok {| Crypto.token := TestHost.token0;
          Crypto.encHeader :=
            Crypto.textHeader (TestHost.opts "correct-horse") TestHost.salt0
              TestHost.iv0 TestHost.now0;
          Crypto.encFingerprint := str "c20c" |}.
Proof. vm_compute. reflexivity. Qed.

(** ** The test host keeps the promises of a host *)

Module TestHostFacts.
Import Crypto TestHost.

Lemma derivesKeys : Crypto.derivesKeys (host := host).
Proof.
  intros password salt n Hn. cbn. unfold deriveKey.
  replace ((0 <? n)%Z && (n <? 4294967296)%Z) with true by (symmetry; lia).
  eauto.
Qed.

Lemma decryptsOwn : Crypto.decryptsOwn (host := host).
Proof.
  intros key iv data. cbn. unfold decrypt, encrypt.
  now rewrite (Byte.byte_dec_lb eq_refl).
Qed.

End TestHostFacts.

Section Claims.
Context {host : Host}.
Import JS Crypto.

Lemma isNum_true v n : isNum v n = true -> v = VNum n.
Proof. destruct v; cbn; try discriminate. now intros ->%Z.eqb_eq. Qed.

Lemma isStr_true v s : isStr v s = true -> v = VStr (str s).
Proof.
  destruct v; cbn; try discriminate. now intros ->%bool_decide_eq_true.
Qed.

Lemma isStr_false v s : v <> VStr (str s) -> isStr v s = false.
Proof.
  intros Hv. destruct v; cbn; try reflexivity.
  apply bool_decide_eq_false. congruence.
Qed.

(** What a token that passed the checks of [decryptToken] satisfies. *)
Lemma parseToken_ok token h salt iv ct iter :
  parseToken token = Ok (h, salt, iv, ct, iter) ->
  startsWith (trim token) PREFIX = true
  /\ length (split DOT (trim token)) = 3%nat
  /\ unpackHeader (headerSegment token) = Ok h
  /\ getProp h "v" = Ok (VNum 1)
  /\ getProp h "alg" = Ok (VStr (str "AES-256-GCM"))
  /\ getProp h "kdf" = Ok (VStr (str "PBKDF2-SHA256")).
Proof.
  unfold parseToken, headerSegment.
  destruct (startsWith (trim token) PREFIX); [|discriminate]. cbn [negb].
  destruct (Nat.eqb_spec (length (split DOT (trim token))) 3) as [Hlen|];
    [|discriminate]. cbn [negb].
  destruct (unpackHeader _) as [h'|e]; [|discriminate]. cbn [rbind].
  destruct (getProp h' "v") as [v|e] eqn:Ev; [|discriminate]. cbn [rbind].
  destruct (isNum v 1) eqn:Hv; [|discriminate]. cbn [negb].
  destruct (getProp h' "alg") as [alg|e] eqn:Ea; [|discriminate]. cbn [rbind].
  destruct (isStr alg _) eqn:Ha; [|discriminate]. cbn [negb].
  destruct (getProp h' "kdf") as [kdf|e] eqn:Ek; [|discriminate]. cbn [rbind].
  destruct (isStr kdf _) eqn:Hk; [|discriminate]. cbn [negb].
  destruct (let? s := getProp h' "salt" in _)%result; [|discriminate].
  cbn [rbind].
  destruct (let? s := getProp h' "iv" in _)%result; [|discriminate].
  cbn [rbind].
  destruct (fromB64Url _); [|discriminate]. cbn [rbind].
  destruct (getProp h' "iter"); [|discriminate]. cbn [rbind].
  intros [= <- _ _ _ _].
  apply isNum_true in Hv. apply isStr_true in Ha, Hk. subst.
  repeat split; auto.
Qed.

(** C5: a string without the [PASCO1.] prefix, or not of three segments,
    or whose header segment does not parse, or whose header carries an
    unsupported version, algorithm or KDF, makes [decryptToken] throw a
    format error without any call into WebCrypto: no key derivation, no
    decryption, no digest. *)
Theorem malformed_token_rejected_before_crypto (t password : jsstring) :
  hasWebCrypto = true ->
  missingPrefix t \/ wrongSegmentCount t \/ unparseableHeader t
  \/ unsupportedTags t ->
  exists e, decryptToken t password = (Throw e, []) /\ isFormatError e.
Proof.
  intros Hweb Hbad. rewrite decryptToken_parse, Hweb.
  destruct (parseToken t) as [[[[[h salt] iv] ct] iter]|e] eqn:Hp.
  - exfalso. apply parseToken_ok in Hp.
    destruct Hp as (Hpre & Hlen & Hh & Hv & Ha & Hk).
    destruct Hbad as [Hb|[Hb|[[e Hb]|(h' & Hh' & Hb)]]].
    + unfold missingPrefix in Hb. congruence.
    + now apply Hb.
    + congruence.
    + assert (h' = h) by congruence. subst h'. tauto.
  - exists e. split; [reflexivity|]. eauto using parseToken_errors.
Qed.

(** C6: the fingerprint a successful [decryptToken] returns is the one
    [fingerprintFromToken] computes from the token alone: the hexadecimal
    SHA-256 of the decoded third segment, whatever the password and the
    header. *)
Theorem fingerprint_needs_no_password (token password : jsstring)
    (res : DecryptResult) (ops : list CryptoOp) :
  decryptToken token password = (Ok res, ops) ->
  exists ct,
    parseCiphertext token = Ok ct
    /\ fingerprint res = flat_map hexByte (subtle_digest ct)
    /\ fingerprintFromToken token = (Ok (fingerprint res), [OpDigest ct]).
Proof.
  intros Hd. apply decryptToken_ok_fingerprint in Hd.
  destruct Hd as (ct & Hct & Hfp & Hweb).
  exists ct. split; [exact Hct|]. split; [exact Hfp|].
  now rewrite fingerprintFromToken_parse, Hweb, Hct, Hfp.
Qed.


(** C10: the kind of the header is not checked: when a token passes the
    checks and decrypts, any kind other than the string ["text"], also a
    missing one, gives a file result that carries the decrypted bytes. *)
Theorem kind_is_not_validated (token password : jsstring) (h : PascoHeader)
    (salt iv ct pt : bytes) (iter : Value) (key : CryptoKey) :
  hasWebCrypto = true ->
  parseToken token = Ok (h, salt, iv, ct, iter) ->
  subtle_deriveKey password salt iter = Some key ->
  subtle_decrypt key iv ct = Some pt ->
  headerProp h "kind" <> VStr (str "text") ->
  fst (decryptToken token password)
  = Ok (FileResult h pt (flat_map hexByte (subtle_digest ct))).
Proof.
  intros Hweb Hp Hk Hd Hkind.
  rewrite decryptToken_parse, Hweb, Hp. unfold decryptParsed.
  rewrite Hk, Hd. cbn [fst]. now rewrite isStr_false.
Qed.

(** C4, on the code: a text that starts with U+FEFF does not come back:
    [decryptToken] returns it without its first character, because the
    [TextDecoder] of [utf8Decode] strips a byte order mark. *)
Theorem leading_bom_is_lost (text : jsstring) (opts : EncryptTextOptions)
    (salt iv : bytes) (createdAt : jsstring) :
  hasWebCrypto = true ->
  acceptsCount (password opts) salt
    (clampIterations (iterations opts) 220000) ->
  decryptsOwn ->
  jsonRoundTrips (textHeader opts salt iv createdAt) ->
  isWellFormed text = true -> startsWith text [0xFEFF] = false ->
  exists e ops,
    encryptText (0xFEFF :: text) opts salt iv createdAt = (Ok e, ops)
    /\ fst (decryptToken (token e) (password opts))
       = Ok (TextResult (definedProps (encHeader e)) text (encFingerprint e)).
Proof.
  intros Hweb Hkeys Haead Hjson Hwf Hbom.
  destruct (decrypt_encryptText (0xFEFF :: text) opts salt iv createdAt)
    as (e & ops & He & Hd); try assumption.
  exists e, ops. split; [exact He|]. rewrite Hd.
  unfold utf8Decode, utf8Encode. now rewrite Utf8.utf8_bom_dropped.
Qed.

End Claims.

Import Crypto.

Lemma testHost_json_text :
  jsonRoundTrips (host := TestHost.host)
    (textHeader (TestHost.opts "correct-horse") TestHost.salt0 TestHost.iv0
       TestHost.now0).
Proof. repeat split; vm_compute; reflexivity. Qed.

Lemma malformed_token_rejected_before_crypto_witness :
  exists e,
    decryptToken (host := TestHost.host) TestHost.emptyHeaderToken (str "x")
    = (Throw e, []) /\ isFormatError e.
Proof.
  apply (malformed_token_rejected_before_crypto (host := TestHost.host)).
  - reflexivity.
  - right; right; right. exists (VObj []).
    split; [vm_compute; reflexivity|]. left. discriminate.
Defined.

Lemma fingerprint_needs_no_password_witness :
  exists ct,
    parseCiphertext TestHost.token0 = Ok ct
    /\ fingerprint TestHost.result0 = flat_map hexByte (TestHost.digest ct)
    /\ fingerprintFromToken (host := TestHost.host) TestHost.token0
       = (Ok (fingerprint TestHost.result0), [OpDigest ct]).
Proof.
  apply (fingerprint_needs_no_password (host := TestHost.host)
           TestHost.token0 (str "correct-horse") TestHost.result0
           (snd (decryptToken (host := TestHost.host) TestHost.token0
                   (str "correct-horse")))).
  vm_compute. reflexivity.
Defined.

Lemma kind_is_not_validated_witness :
  fst (decryptToken (host := TestHost.host) TestHost.bananaToken
         (str "correct-horse"))
  = Ok (FileResult
          (VObj [(str "v", VNum 1); (str "alg", VStr (str "AES-256-GCM"));
                 (str "kdf", VStr (str "PBKDF2-SHA256"));
                 (str "iter", VNum 50000);
                 (str "salt", VStr (base64url TestHost.salt0));
                 (str "iv", VStr (base64url TestHost.iv0));
                 (str "kind", VStr (str "banana"))])
          (map JS.byteOf [1; 2; 3])
          (flat_map hexByte (TestHost.digest (map JS.byteOf [86; 1; 2; 3])))).
Proof.
  apply (kind_is_not_validated (host := TestHost.host) TestHost.bananaToken
           (str "correct-horse") _ TestHost.salt0 TestHost.iv0 _ _
           (VNum 50000) 24).
  - reflexivity.
  - vm_compute. reflexivity.
  - vm_compute. reflexivity.
  - vm_compute. reflexivity.
  - vm_compute. discriminate.
Defined.



Lemma leading_bom_is_lost_witness :
  exists e ops,
    encryptText (host := TestHost.host) (0xFEFF :: str "a")
      (TestHost.opts "correct-horse") TestHost.salt0 TestHost.iv0
      TestHost.now0 = (Ok e, ops)
    /\ fst (decryptToken (host := TestHost.host) (token e) (str "correct-horse"))
       = Ok (TextResult (definedProps (encHeader e)) (str "a")
               (encFingerprint e)).
Proof.
  apply (leading_bom_is_lost (host := TestHost.host) (str "a")
           (TestHost.opts "correct-horse")).
  - reflexivity.
  - apply derivesKeys_default; [apply TestHostFacts.derivesKeys|lia].
  - apply TestHostFacts.decryptsOwn.
  - apply testHost_json_text.
  - reflexivity.
  - reflexivity.
Defined.

Section LabClaims.
Context {host : Host}.
Import JS Crypto CryptoLab.

Lemma used_insert p fp n m :
  attempts p = <[fp := n]> m -> used p fp = n.
Proof. intros E. unfold used. now rewrite E, lookup_insert_eq. Qed.










End LabClaims.

(** ** Round trips through [encryptText], [encryptFile] and [decryptToken] *)

Section RoundTripClaims.
Context {host : Host}.
Import JS Crypto.

(** Round trip of a text: a well-formed text that does not start with
    U+FEFF comes back unchanged, under the header as JSON wrote it and
    with the fingerprint [encryptText] returned. *)
Theorem text_round_trip (text : jsstring) (opts : EncryptTextOptions)
    (salt iv : bytes) (createdAt : jsstring) :
  hasWebCrypto = true ->
  acceptsCount (password opts) salt
    (clampIterations (iterations opts) 220000) ->
  decryptsOwn ->
  jsonRoundTrips (textHeader opts salt iv createdAt) ->
  isWellFormed text = true -> startsWith text [0xFEFF] = false ->
  exists e ops,
    encryptText text opts salt iv createdAt = (Ok e, ops)
    /\ fst (decryptToken (token e) (password opts))
       = Ok (TextResult (definedProps (encHeader e)) text (encFingerprint e)).
Proof.
  intros Hweb Hkeys Haead Hjson Hwf Hbom.
  destruct (decrypt_encryptText text opts salt iv createdAt)
    as (e & ops & He & Hd); try assumption.
  exists e, ops. split; [exact He|]. rewrite Hd.
  unfold utf8Decode, utf8Encode. now rewrite Utf8.utf8_roundtrip.
Qed.

(** C8, as the code has it: decrypting, with the password it was made
    with, the token [encryptFile] returns gives back the bytes of the
    file unchanged, under a header that carries the file's name and size,
    and as mime type the file's type when that is not empty and
    ["application/octet-stream"] when it is. *)
Theorem file_round_trip (file : File) (opts : EncryptFileOptions)
    (salt iv : bytes) (createdAt : jsstring) :
  hasWebCrypto = true ->
  acceptsCount (password opts) salt
    (clampIterations (iterations opts) 260000) ->
  decryptsOwn ->
  jsonRoundTrips (fileHeader file opts salt iv createdAt) ->
  exists e ops h,
    encryptFile file opts salt iv createdAt = (Ok e, ops)
    /\ fst (decryptToken (token e) (password opts))
       = Ok (FileResult h (content file) (encFingerprint e))
    /\ headerProp h "filename" = VStr (name file)
    /\ headerProp h "size" = VNum (Z.of_nat (length (content file)))
    /\ headerProp h "mime"
       = VStr (match type file with
               | [] => str "application/octet-stream"
               | t => t
               end).
Proof.
  intros Hweb Hkeys Haead Hjson.
  rewrite encryptFile_eq, Hweb. cbv zeta.
  destruct Hkeys as [key Hkey]. unfold acceptsCount in Hkey.
  rewrite Hkey.
  destruct (fileHeader_props file opts salt iv createdAt)
    as (Hv & Halg & Hkdf & Hsalt & Hiv & Hiter & Hkind & Hname & Hmime & Hsize).
  eexists _, _, _. split; [reflexivity|].
  cbn [token encHeader encFingerprint].
  rewrite decryptToken_parse, Hweb.
  rewrite (parseToken_tokenOf _ _ salt iv _ Hjson Hv Halg Hkdf Hsalt Hiv Hiter).
  unfold decryptParsed. rewrite Hkey, Haead. cbn [fst].
  rewrite Hkind.
  split; [reflexivity|]. now rewrite Hname, Hsize, Hmime.
Qed.

(** C9: white space added around a token changes neither what
    [decryptToken] returns and calls, for any password, nor what
    [fingerprintFromToken] returns and calls: both trim the token first. *)
Theorem surrounding_whitespace_ignored (t password ws1 ws2 : jsstring) :
  Forall (fun c => isWhiteSpace c = true) ws1 ->
  Forall (fun c => isWhiteSpace c = true) ws2 ->
  decryptToken (ws1 ++ t ++ ws2) password = decryptToken t password
  /\ fingerprintFromToken (ws1 ++ t ++ ws2) = fingerprintFromToken t.
Proof.
  intros H1 H2. unfold decryptToken, fingerprintFromToken.
  now rewrite Trim.trim_surrounded.
Qed.

End RoundTripClaims.

(** ** The counters *)

Section Counters.
Context {host : Host}.
Import JS Crypto CryptoLab.

(** No counter ever becomes negative. *)
Theorem counters_stay_nonnegative (p : Page) :
  validAttempts p -> validAttempts (runDecrypt p).
Proof.
  intros Hvalid.
  destruct (classic_filled p) as [Hf|Hf].
  2:{ unfold validAttempts. now rewrite runDecrypt_not_filled. }
  destruct (decryptToken (trim (tokenToDecrypt p)) (decPassword p))
    as [[res|e] ops] eqn:Hd.
  - destruct (Z.ltb_spec (used p (fingerprint res)) maxAttempts).
    + destruct (runDecrypt_success p res ops Hf Hd) as [Ha _]; [assumption|].
      intros fp n. rewrite Ha, lookup_insert.
      case_decide; [intros [= <-]; lia|apply Hvalid].
    + destruct (runDecrypt_locked p res ops Hf Hd) as [Ha _]; [assumption|].
      unfold validAttempts. now rewrite Ha.
  - destruct (fingerprintFromToken (trim (tokenToDecrypt p)))
      as [[fp|e'] ops'] eqn:Hfp.
    + rewrite fingerprintFromToken_parse in Hfp.
      destruct hasWebCrypto eqn:Hweb; [|discriminate].
      destruct (parseCiphertext _) as [ct|] eqn:Hct; [|discriminate].
      destruct (runDecrypt_charged p e ops ct Hf Hd Hweb Hct) as [Ha _].
      intros fp' n. rewrite Ha, lookup_insert.
      case_decide; [|apply Hvalid].
      intros [= <-].
      assert (0 <= used p (fingerprintOf ct))%Z; [|lia].
      unfold used. destruct (attempts p !! fingerprintOf ct) eqn:E; cbn;
        [eauto|lia].
    + destruct (runDecrypt_uncharged p e ops e' ops' Hf Hd Hfp) as [Ha _].
      unfold validAttempts. now rewrite Ha.
Qed.

End Counters.

(** ** The claims on the test host *)

Import Crypto CryptoLab.

Lemma testHost_json_file1 :
  jsonRoundTrips (host := TestHost.host)
    (fileHeader TestHost.file1 (TestHost.opts "correct-horse") TestHost.salt0
       TestHost.iv0 TestHost.now0).
Proof. repeat split; vm_compute; reflexivity. Qed.

Lemma text_round_trip_witness :
  exists e ops,
    encryptText (host := TestHost.host) (str "hello world")
      (TestHost.opts "correct-horse") TestHost.salt0 TestHost.iv0
      TestHost.now0 = (Ok e, ops)
    /\ fst (decryptToken (host := TestHost.host) (token e) (str "correct-horse"))
       = Ok (TextResult (definedProps (encHeader e)) (str "hello world")
               (encFingerprint e)).
Proof.
  apply (text_round_trip (host := TestHost.host) (str "hello world")
           (TestHost.opts "correct-horse")).
  - reflexivity.
  - apply derivesKeys_default; [apply TestHostFacts.derivesKeys|lia].
  - apply TestHostFacts.decryptsOwn.
  - apply testHost_json_text.
  - reflexivity.
  - reflexivity.
Defined.

Lemma file_round_trip_witness :
  exists e ops h,
    encryptFile (host := TestHost.host) TestHost.file1
      (TestHost.opts "correct-horse") TestHost.salt0 TestHost.iv0
      TestHost.now0 = (Ok e, ops)
    /\ fst (decryptToken (host := TestHost.host) (token e) (str "correct-horse"))
       = Ok (FileResult h (map JS.byteOf [137; 80; 78; 71]) (encFingerprint e))
    /\ headerProp h "filename" = VStr (str "a.png")
    /\ headerProp h "size" = VNum 4
    /\ headerProp h "mime" = VStr (str "image/png").
Proof.
  apply (file_round_trip (host := TestHost.host) TestHost.file1
           (TestHost.opts "correct-horse")).
  - reflexivity.
  - apply derivesKeys_default; [apply TestHostFacts.derivesKeys|lia].
  - apply TestHostFacts.decryptsOwn.
  - apply testHost_json_file1.
Defined.

(** C8 fails as stated on a file whose type is empty: the header that
    comes back says ["application/octet-stream"], which is not the type
    of the file. *)
Lemma untyped_file_gets_a_mime :
  type TestHost.file0 = []
  /\ exists e ops h fp,
       encryptFile (host := TestHost.host) TestHost.file0
         (TestHost.opts "correct-horse") TestHost.salt0 TestHost.iv0
         TestHost.now0 = (Ok e, ops)
       /\ fst (decryptToken (host := TestHost.host) (token e)
                 (str "correct-horse"))
          = Ok (FileResult h (content TestHost.file0) fp)
       /\ headerProp h "mime" = VStr (str "application/octet-stream")
       /\ headerProp h "mime" <> VStr (type TestHost.file0).
Proof.
  split; [reflexivity|].
  eexists _, _, _, _. split; [vm_compute; reflexivity|].
  split; [vm_compute; reflexivity|].
  split; [vm_compute; reflexivity|]. vm_compute. discriminate.
Qed.

Lemma surrounding_whitespace_ignored_witness :
  decryptToken (host := TestHost.host)
    ([32; 10] ++ TestHost.token0 ++ [9; 65279]) (str "correct-horse")
  = decryptToken (host := TestHost.host) TestHost.token0 (str "correct-horse")
  /\ fingerprintFromToken (host := TestHost.host)
       ([32; 10] ++ TestHost.token0 ++ [9; 65279])
     = fingerprintFromToken (host := TestHost.host) TestHost.token0.
Proof.
  apply (surrounding_whitespace_ignored (host := TestHost.host));
    repeat constructor.
Defined.







Lemma counters_stay_nonnegative_witness :
  validAttempts (runDecrypt (host := TestHost.host) TestHost.lockedAttempt).
Proof.
  apply (counters_stay_nonnegative (host := TestHost.host) TestHost.lockedAttempt).
  intros fp n. cbn. intros [_ <-]%lookup_singleton_Some. lia.
Defined.

(** ** The sentinel of [runDecrypt] *)

Section Sentinel.
Context {host : Host}.
Import Crypto.

(** [runDecrypt] tells a token without fingerprint by the string
    ["unknown"]; no digest is written that way, so no fingerprint is
    mistaken for it. *)
Theorem fingerprint_is_never_unknown (b : bytes) :
  fst (sha256Hex b) <> Ok (str "unknown").
Proof.
  unfold sha256Hex, assertWebCrypto.
  destruct hasWebCrypto; cbn; [|discriminate].
  intros [= Hfp]. now apply (fingerprintOf_not_unknown b).
Qed.

End Sentinel.

(** * Further properties of crypto.ts *)

Section MoreCrypto.
Context {host : Host}.
Import JS Crypto Shape.

(** [fingerprintFromToken] reads from the token of a header and a
    ciphertext the ciphertext that was put into it. *)
Lemma parseCiphertext_tokenOf header ct :
  parseCiphertext (tokenOf header ct) = Ok ct.
Proof.
  unfold parseCiphertext, tokenOf.
  rewrite trim_token by apply b64url_chars.
  rewrite split_token by apply b64url_chars.
  replace (startsWith _ PREFIX) with true by reflexivity.
  cbn [negb length Nat.eqb part nth]. apply fromB64Url_b64url.
Qed.


Lemma tokenOf_wellShaped header ct : wellShaped (tokenOf header ct).
Proof. eexists _, _. split; [reflexivity|]. split; apply b64url_chars. Qed.

(** What [encryptText] and [encryptFile] return when they return. *)
Lemma encryptText_ok text opts salt iv createdAt e ops :
  encryptText text opts salt iv createdAt = (Ok e, ops) ->
  hasWebCrypto = true
  /\ exists key,
       subtle_deriveKey (password opts) salt
         (numberValue (clampIterations (iterations opts) 220000)) = Some key
       /\ e = {| token := tokenOf (textHeader opts salt iv createdAt)
                            (subtle_encrypt key iv (utf8Encode text));
                 encHeader := textHeader opts salt iv createdAt;
                 encFingerprint :=
                   fingerprintOf (subtle_encrypt key iv (utf8Encode text)) |}.
Proof.
  rewrite encryptText_eq. destruct hasWebCrypto; [|discriminate]. cbv zeta.
  destruct (subtle_deriveKey _ _ _) as [key|]; [|discriminate].
  intros [= <- _]. eauto.
Qed.

Lemma encryptFile_ok file opts salt iv createdAt e ops :
  encryptFile file opts salt iv createdAt = (Ok e, ops) ->
  hasWebCrypto = true
  /\ exists key,
       subtle_deriveKey (password opts) salt
         (numberValue (clampIterations (iterations opts) 260000)) = Some key
       /\ e = {| token := tokenOf (fileHeader file opts salt iv createdAt)
                            (subtle_encrypt key iv (content file));
                 encHeader := fileHeader file opts salt iv createdAt;
                 encFingerprint :=
                   fingerprintOf (subtle_encrypt key iv (content file)) |}.
Proof.
  rewrite encryptFile_eq. destruct hasWebCrypto; [|discriminate]. cbv zeta.
  destruct (subtle_deriveKey _ _ _) as [key|]; [|discriminate].
  intros [= <- _]. eauto.
Qed.

Lemma sha256Hex_eq b :
  sha256Hex b =
  if hasWebCrypto then (Ok (fingerprintOf b), [OpDigest b])
  else (Throw (Error "WebCrypto is not available in this environment."), []).
Proof. unfold sha256Hex, assertWebCrypto. now destruct hasWebCrypto. Qed.


(** ** Without WebCrypto *)

(** Without [crypto.subtle] every exported operation of crypto.ts throws
    the same error, whatever its arguments, and calls nothing. *)
Theorem without_webcrypto_nothing_runs :
  hasWebCrypto = false ->
  let unavailable := Error "WebCrypto is not available in this environment." in
  (forall text opts salt iv createdAt,
      encryptText text opts salt iv createdAt = (Throw unavailable, []))
  /\ (forall file opts salt iv createdAt,
        encryptFile file opts salt iv createdAt = (Throw unavailable, []))
  /\ (forall token password,
        decryptToken token password = (Throw unavailable, []))
  /\ (forall token, fingerprintFromToken token = (Throw unavailable, [])).
Proof.
  intros Hweb unavailable. repeat split; intros.
  - now rewrite encryptText_eq, Hweb.
  - now rewrite encryptFile_eq, Hweb.
  - now rewrite decryptToken_parse, Hweb.
  - now rewrite fingerprintFromToken_parse, Hweb.
Qed.

(** ** What [decryptToken] throws *)

(** Whatever the token and the key, [decryptToken] fails in one of four
    ways: WebCrypto is missing, or the token is refused for its format,
    both before any call into WebCrypto; or PBKDF2 rejects the salt or the
    iteration count of the header, after that one call; or AES-GCM rejects
    the ciphertext, after key derivation and decryption. It never hashes
    the ciphertext when it fails. *)
Theorem decryptToken_fails_in_four_ways (token password : jsstring)
    (e : Exn) (ops : list CryptoOp) :
  decryptToken token password = (Throw e, ops) ->
  (isEnvironmentError e /\ ops = [])
  \/ (isFormatError e /\ ops = [])
  \/ (e = OperationError
      /\ exists salt iter, ops = [OpDeriveKey password salt iter])
  \/ (isAuthenticationError e
      /\ exists salt iter iv ct,
           ops = [OpDeriveKey password salt iter; OpDecrypt iv ct]).
Proof.
  rewrite decryptToken_parse.
  destruct hasWebCrypto.
  2:{ intros [= <- <-]. left. now split. }
  destruct (parseToken token) as [[[[[h salt] iv] ct] iter]|e'] eqn:Hp.
  2:{ intros [= <- <-]. right; left. split; [|reflexivity].
      now apply (parseToken_errors token). }
  unfold decryptParsed.
  destruct (subtle_deriveKey password salt iter) as [key|].
  2:{ intros [= <- <-]. right; right; left. eauto. }
  destruct (subtle_decrypt key iv ct) as [pt|]; [discriminate|].
  intros [= <- <-]. right; right; right. split; [reflexivity|]. eauto 6.
Qed.

(** ** The header is taken on trust *)

(** [decryptToken] accepts any header that JSON can carry and that has
    the three supported tags and a salt and an IV in base64url. It derives
    the key with the iteration count the header gives, whatever it is, and
    returns the header as it came, file name, mime type, size, note and
    date included: nothing ties them to the ciphertext. The fingerprint is
    the one of the ciphertext, whatever the header. *)
Theorem header_is_taken_on_trust (h : PascoHeader) (ct salt iv pt : bytes)
    (iter : Value) (password : jsstring) (key : CryptoKey) :
  hasWebCrypto = true -> jsonRoundTrips h ->
  getProp (definedProps h) "v" = Ok (VNum 1) ->
  getProp (definedProps h) "alg" = Ok (VStr (str "AES-256-GCM")) ->
  getProp (definedProps h) "kdf" = Ok (VStr (str "PBKDF2-SHA256")) ->
  getProp (definedProps h) "salt" = Ok (VStr (base64url salt)) ->
  getProp (definedProps h) "iv" = Ok (VStr (base64url iv)) ->
  getProp (definedProps h) "iter" = Ok iter ->
  subtle_deriveKey password salt iter = Some key ->
  subtle_decrypt key iv ct = Some pt ->
  decryptToken (tokenOf h ct) password
  = (Ok (if isStr (headerProp (definedProps h) "kind") "text"
         then TextResult (definedProps h) (utf8Decode pt) (fingerprintOf ct)
         else FileResult (definedProps h) pt (fingerprintOf ct)),
     [OpDeriveKey password salt iter; OpDecrypt iv ct; OpDigest ct]).
Proof.
  intros Hweb Hjson Hv Halg Hkdf Hsalt Hiv Hiter Hkey Hdec.
  rewrite decryptToken_parse, Hweb.
  rewrite (parseToken_tokenOf _ _ salt iv _ Hjson Hv Halg Hkdf Hsalt Hiv Hiter).
  unfold decryptParsed. now rewrite Hkey, Hdec.
Qed.

(** ** Fingerprints are hexadecimal *)

Lemma hexDigit_range d :
  d < 16 -> 48 <= hexDigit d <= 57 \/ 97 <= hexDigit d <= 102.
Proof. unfold hexDigit. intros. destruct (N.ltb_spec d 10); lia. Qed.

Lemma hexDigit_inj a b : a < 16 -> b < 16 -> hexDigit a = hexDigit b -> a = b.
Proof.
  unfold hexDigit. intros Ha Hb.
  destruct (N.ltb_spec a 10), (N.ltb_spec b 10); lia.
Qed.

Lemma hexByte_inj a b : hexByte a = hexByte b -> a = b.
Proof.
  unfold hexByte. intros [= H1 H2].
  pose proof (to_N_lt a). pose proof (to_N_lt b).
  apply hexDigit_inj in H1; [|lia..].
  apply hexDigit_inj in H2; [|lia..].
  rewrite <- (byteOf_to_N a), <- (byteOf_to_N b). f_equal. lia.
Qed.

Lemma hex_inj (a b : bytes) :
  flat_map hexByte a = flat_map hexByte b -> a = b.
Proof.
  revert b. induction a as [|x a IH]; intros [|y b]; cbn; try discriminate.
  - reflexivity.
  - intros [= H1 H2 H]. f_equal; [|now apply IH].
    apply hexByte_inj. unfold hexByte. now rewrite H1, H2.
Qed.

Lemma hex_digits (b : bytes) :
  length (flat_map hexByte b) = (2 * length b)%nat
  /\ Forall (fun c => 48 <= c <= 57 \/ 97 <= c <= 102) (flat_map hexByte b).
Proof.
  induction b as [|x b [IHl IHf]]; cbn [flat_map length app hexByte].
  - split; [reflexivity|constructor].
  - pose proof (to_N_lt x). split; [cbn; lia|].
    constructor; [apply hexDigit_range; lia|].
    constructor; [apply hexDigit_range; lia|exact IHf].
Qed.

(** What [sha256Hex] returns has two characters for each byte of the
    digest, each of them one of [0-9a-f]. *)
Theorem fingerprint_is_lowercase_hex (b : bytes) (fp : jsstring)
    (ops : list CryptoOp) :
  sha256Hex b = (Ok fp, ops) ->
  length fp = (2 * length (subtle_digest b))%nat
  /\ Forall (fun c => 48 <= c <= 57 \/ 97 <= c <= 102) fp.
Proof.
  rewrite sha256Hex_eq. destruct hasWebCrypto; [|discriminate].
  intros [= <- _]. apply hex_digits.
Qed.

(** Writing a digest in hexadecimal loses nothing: two byte arrays have
    the same fingerprint only when they have the same digest. *)
Theorem equal_fingerprints_equal_digests (a b : bytes) (fp : jsstring)
    (ops ops' : list CryptoOp) :
  sha256Hex a = (Ok fp, ops) -> sha256Hex b = (Ok fp, ops') ->
  subtle_digest a = subtle_digest b.
Proof.
  rewrite !sha256Hex_eq. destruct hasWebCrypto; [|discriminate].
  intros [= <- _] [= H _]. symmetry. now apply hex_inj.
Qed.

(** ** The tokens [encryptText] and [encryptFile] return *)

(** A token that [encryptText] or [encryptFile] returns is the prefix and
    two segments of characters of [A-Za-z0-9_-] with a dot between them.
    Such a string has no white space and no character outside printable
    ASCII, is left as it is by [trim], and passes the two checks on the
    shape of a token. *)
Theorem tokens_are_copy_paste_safe :
  (forall text opts salt iv createdAt e ops,
      encryptText text opts salt iv createdAt = (Ok e, ops) ->
      wellShaped (token e))
  /\ (forall file opts salt iv createdAt e ops,
        encryptFile file opts salt iv createdAt = (Ok e, ops) ->
        wellShaped (token e))
  /\ (forall t, wellShaped t ->
        trim t = t /\ startsWith t PREFIX = true
        /\ length (split DOT t) = 3%nat
        /\ Forall (fun c => 33 <= c <= 126) t).
Proof.
  split; [|split].
  - intros * (_ & key & _ & ->)%encryptText_ok. apply tokenOf_wellShaped.
  - intros * (_ & key & _ & ->)%encryptFile_ok. apply tokenOf_wellShaped.
  - intros t (a & b & -> & Ha & Hb).
    split; [now apply trim_token|].
    split; [reflexivity|].
    split; [now rewrite split_token|].
    assert (Hchars : forall s, Forall (fun c => isUrlChar c = true) s ->
                               Forall (fun c => 33 <= c <= 126) s).
    { intros s. apply List.Forall_impl. intros c. unfold isUrlChar. lia. }
    repeat (apply List.Forall_app; split); auto.
    + unfold PREFIX. vm_compute str. repeat constructor; lia.
    + repeat constructor; unfold DOT; lia.
Qed.

(** The fingerprint [encryptText] and [encryptFile] return is the one
    [fingerprintFromToken] computes from the token they return. *)
Theorem returned_fingerprint_is_the_tokens :
  (forall text opts salt iv createdAt e ops,
      encryptText text opts salt iv createdAt = (Ok e, ops) ->
      fst (fingerprintFromToken (token e)) = Ok (encFingerprint e))
  /\ (forall file opts salt iv createdAt e ops,
        encryptFile file opts salt iv createdAt = (Ok e, ops) ->
        fst (fingerprintFromToken (token e)) = Ok (encFingerprint e)).
Proof.
  split; intros * He.
  - apply encryptText_ok in He as (Hweb & key & _ & ->).
    cbn [token encFingerprint].
    now rewrite fingerprintFromToken_parse, Hweb, parseCiphertext_tokenOf.
  - apply encryptFile_ok in He as (Hweb & key & _ & ->).
    cbn [token encFingerprint].
    now rewrite fingerprintFromToken_parse, Hweb, parseCiphertext_tokenOf.
Qed.

(** ** The note *)

Lemma noteValue_noteOf note : noteOf note (noteValue note).
Proof.
  destruct note as [n|]; cbn; [|reflexivity].
  destruct (trim n) eqn:E; [left; auto|right]. split; [discriminate|].
  reflexivity.
Qed.

Lemma textHeader_note opts salt iv createdAt :
  headerProp (textHeader opts salt iv createdAt) "note" = noteValue (note opts).
Proof.
  unfold textHeader, headerProp. cbn.
  destruct (noteValue (note opts)); reflexivity.
Qed.

Lemma fileHeader_note file opts salt iv createdAt :
  headerProp (fileHeader file opts salt iv createdAt) "note"
  = noteValue (note opts).
Proof.
  unfold fileHeader, headerProp. cbn.
  destruct (noteValue (note opts)); reflexivity.
Qed.

(** The header [encryptText] and [encryptFile] return carries the note of
    the options trimmed, and no note when that one is absent or blank; so
    a note in a header is never empty and has no white space around
    it. *)
Theorem note_is_trimmed_or_left_out :
  (forall text opts salt iv createdAt e ops,
      encryptText text opts salt iv createdAt = (Ok e, ops) ->
      noteOf (note opts) (headerProp (encHeader e) "note"))
  /\ (forall file opts salt iv createdAt e ops,
        encryptFile file opts salt iv createdAt = (Ok e, ops) ->
        noteOf (note opts) (headerProp (encHeader e) "note"))
  /\ (forall n t, noteOf n (VStr t) -> t <> [] /\ trim t = t).
Proof.
  split; [|split].
  - intros * (_ & key & _ & ->)%encryptText_ok. cbn [encHeader].
    rewrite textHeader_note. apply noteValue_noteOf.
  - intros * (_ & key & _ & ->)%encryptFile_ok. cbn [encHeader].
    rewrite fileHeader_note. apply noteValue_noteOf.
  - intros [n|] t; cbn; [|discriminate].
    intros [[_ [=]]|[Hn [= ->]]]. split; [exact Hn|].
    apply Trim.trim_idempotent.
Qed.

(** ** What comes back of any text *)

Lemma toScalars_scalar s :
  Forall (fun c => c < 0x10000) s -> Forall isScalar (toScalars s).
Proof.
  assert (H : forall n s, (length s <= n)%nat ->
                Forall (fun c => c < 0x10000) s -> Forall isScalar (toScalars s)).
  2:{ apply (H (length s)). lia. }
  assert (Hfffd : isScalar 0xFFFD) by (unfold isScalar; lia).
  clear s. induction n as [|n IH]; intros [|c r] Hlen Hs; try constructor;
    cbn [length] in Hlen; try lia.
  apply List.Forall_cons_iff in Hs as [Hc Hr].
  pose proof (IH r ltac:(lia) Hr) as Hr'.
  cbn [toScalars]. unfold isHighSurrogate, isLowSurrogate.
  destruct ((0xD800 <=? c) && (c <=? 0xDBFF)) eqn:Ehi.
  - destruct r as [|d r']; [constructor; [exact Hfffd|constructor]|].
    apply List.Forall_cons_iff in Hr as [Hd Hr]. cbn [length] in Hlen.
    destruct ((0xDC00 <=? d) && (d <=? 0xDFFF)) eqn:Elo.
    + constructor; [unfold isScalar; lia|]. apply IH; [lia|exact Hr].
    + constructor; assumption.
  - destruct ((0xDC00 <=? c) && (c <=? 0xDFFF)) eqn:Elo.
    + constructor; assumption.
    + constructor; [unfold isScalar; lia|assumption].
Qed.

Lemma utf8_decode_encode s :
  Forall (fun c => c < 0x10000) s ->
  TextDecoder_decode (TextEncoder_encode s) = decoded s.
Proof.
  intros Hs. unfold TextDecoder_decode, TextEncoder_encode, decoded.
  now rewrite Utf8.utf8Run_scalars by now apply toScalars_scalar.
Qed.

(** Whatever the text, decrypting, with the password it was made with,
    the token [encryptText] returns gives the text with every lone
    surrogate replaced by U+FFFD and without a first U+FEFF. *)
Theorem text_comes_back_decoded (text : jsstring)
    (opts : EncryptTextOptions) (salt iv : bytes) (createdAt : jsstring) :
  hasWebCrypto = true ->
  acceptsCount (password opts) salt
    (clampIterations (iterations opts) 220000) ->
  decryptsOwn ->
  jsonRoundTrips (textHeader opts salt iv createdAt) ->
  Forall (fun c => c < 0x10000) text ->
  exists e ops,
    encryptText text opts salt iv createdAt = (Ok e, ops)
    /\ fst (decryptToken (token e) (password opts))
       = Ok (TextResult (definedProps (encHeader e)) (decoded text)
               (encFingerprint e)).
Proof.
  intros Hweb Hkeys Haead Hjson Hunits.
  destruct (decrypt_encryptText text opts salt iv createdAt)
    as (e & ops & He & Hd); try assumption.
  exists e, ops. split; [exact He|]. rewrite Hd.
  unfold utf8Decode, utf8Encode. now rewrite utf8_decode_encode.
Qed.

End MoreCrypto.

(** * The alphabet [fromB64Url] reads *)

Section Alphabet.
Context {host : Host}.
Import JS Crypto Shape.

Lemma fromUrl_map s : fromUrl s = map standardChar s.
Proof. unfold fromUrl, replaceAll. now rewrite map_map. Qed.

Lemma standardChar_cases c :
  (c = 45 /\ standardChar c = 43) \/ (c = 95 /\ standardChar c = 47)
  \/ (c <> 45 /\ c <> 95 /\ standardChar c = c).
Proof.
  unfold standardChar.
  destruct (N.eqb_spec c 45) as [->|H45]; [left; now split|].
  destruct (N.eqb_spec c 95) as [->|H95]; [right; left; now split|].
  right; right. auto.
Qed.

Lemma standardChar_idempotent c : standardChar (standardChar c) = standardChar c.
Proof.
  destruct (standardChar_cases c) as [[-> ->]|[[-> ->]|(_ & _ & E)]];
    [reflexivity..|now rewrite !E].
Qed.

Lemma standardChar_ws c : isWhiteSpace (standardChar c) = isWhiteSpace c.
Proof.
  destruct (standardChar_cases c) as [[-> ->]|[[-> ->]|(_ & _ & ->)]];
    reflexivity.
Qed.

Lemma dropWhile_map {A} (p : A -> bool) (f : A -> A) l :
  (forall x, p (f x) = p x) ->
  dropWhile p (map f l) = map f (dropWhile p l).
Proof.
  intros Hp. induction l as [|x l IH]; cbn; [reflexivity|].
  rewrite Hp. now destruct (p x).
Qed.

Lemma trim_standard s : trim (map standardChar s) = map standardChar (trim s).
Proof.
  unfold trim, trimEnd, trimStart.
  rewrite (dropWhile_map _ _ _ standardChar_ws), <- map_rev.
  now rewrite (dropWhile_map _ _ _ standardChar_ws), map_rev.
Qed.

Lemma startsWith_standard s p :
  Forall (fun a => a <> 43 /\ a <> 47 /\ a <> 45 /\ a <> 95) p ->
  startsWith (map standardChar s) p = startsWith s p.
Proof.
  intros Hp. revert s. induction Hp as [|a p Ha _ IH]; intros [|c s];
    cbn [startsWith map]; try reflexivity.
  rewrite IH. f_equal.
  destruct (standardChar_cases c) as [[-> ->]|[[-> ->]|(_ & _ & ->)]];
    [| |reflexivity];
    destruct (N.eqb_spec a 43), (N.eqb_spec a 45), (N.eqb_spec a 47),
      (N.eqb_spec a 95); try reflexivity; lia.
Qed.

Lemma split_standard s :
  split DOT (map standardChar s) = map (map standardChar) (split DOT s).
Proof.
  induction s as [|c s IH]; [reflexivity|]. cbn [map split].
  assert (Hdot : (standardChar c =? DOT) = (c =? DOT)).
  { unfold DOT.
    destruct (standardChar_cases c) as [[-> ->]|[[-> ->]|(_ & _ & ->)]];
      reflexivity. }
  rewrite Hdot, IH. destruct (c =? DOT); [reflexivity|].
  now destruct (split DOT s).
Qed.

Lemma part_standard l i :
  part (map (map standardChar) l) i = map standardChar (part l i).
Proof.
  unfold part. revert i. induction l as [|x l IH]; intros [|i]; cbn;
    try reflexivity. apply IH.
Qed.

Lemma fromB64Url_standard s :
  fromB64Url (map standardChar s) = fromB64Url s.
Proof.
  unfold fromB64Url. fold (fromUrl (map standardChar s)). fold (fromUrl s).
  rewrite length_map, !fromUrl_map, map_map.
  now rewrite (map_ext _ _ standardChar_idempotent).
Qed.

Lemma unpackHeader_standard s :
  unpackHeader (map standardChar s) = unpackHeader s.
Proof. unfold unpackHeader. now rewrite fromB64Url_standard. Qed.

Lemma PREFIX_plain :
  Forall (fun a => a <> 43 /\ a <> 47 /\ a <> 45 /\ a <> 95) PREFIX.
Proof. unfold PREFIX. vm_compute str. repeat constructor; lia. Qed.

(** [fromB64Url] reads the standard alphabet as well as the URL-safe one:
    a token in which [-] is written [+] and [_] is written [/] is the
    same token to [decryptToken] and to [fingerprintFromToken], which
    return, throw and call the same on both. *)
Theorem standard_alphabet_is_read_too (token password : jsstring) :
  decryptToken (fromUrl token) password = decryptToken token password
  /\ fingerprintFromToken (fromUrl token) = fingerprintFromToken token.
Proof.
  rewrite !decryptToken_parse, !fingerprintFromToken_parse.
  assert (Hparse : parseToken (fromUrl token) = parseToken token).
  { unfold parseToken. rewrite fromUrl_map, trim_standard.
    rewrite (startsWith_standard _ _ PREFIX_plain), split_standard.
    rewrite length_map, !part_standard.
    now rewrite unpackHeader_standard, fromB64Url_standard. }
  assert (Hct : parseCiphertext (fromUrl token) = parseCiphertext token).
  { unfold parseCiphertext. rewrite fromUrl_map, trim_standard.
    rewrite (startsWith_standard _ _ PREFIX_plain), split_standard.
    rewrite length_map, !part_standard.
    now rewrite fromB64Url_standard. }
  now rewrite Hparse, Hct.
Qed.

End Alphabet.

(** * Further properties of the Crypto Lab page *)

Section MorePage.
Context {host : Host}.
Import JS Crypto CryptoLab Handlers.


(** Both operations trim the token, so trimming it first changes
    nothing. *)
Lemma fingerprintFromToken_trim t :
  fingerprintFromToken (trim t) = fingerprintFromToken t.
Proof. unfold fingerprintFromToken. now rewrite Trim.trim_idempotent. Qed.


(** The four ways an attempt on a filled form goes: decrypted below the
    maximum, decrypted at the maximum, failed on a token that has a
    fingerprint, failed on a token that has none. *)
Lemma runDecrypt_cases p :
  filled p ->
  let token := trim (tokenToDecrypt p) in
  (exists res ops,
      decryptToken token (decPassword p) = (Ok res, ops)
      /\ fst (fingerprintFromToken token) = Ok (fingerprint res)
      /\ (used p (fingerprint res) < maxAttempts)%Z)
  \/ (exists res ops,
        decryptToken token (decPassword p) = (Ok res, ops)
        /\ fst (fingerprintFromToken token) = Ok (fingerprint res)
        /\ (maxAttempts <= used p (fingerprint res))%Z)
  \/ (exists e ops ct,
        decryptToken token (decPassword p) = (Throw e, ops)
        /\ hasWebCrypto = true /\ parseCiphertext token = Ok ct
        /\ fst (fingerprintFromToken token) = Ok (fingerprintOf ct))
  \/ (exists e ops e' ops',
        decryptToken token (decPassword p) = (Throw e, ops)
        /\ fingerprintFromToken token = (Throw e', ops')).
Proof.
  intros Hf token.
  destruct (decryptToken token (decPassword p)) as [[res|e] ops] eqn:Hd.
  - destruct (decryptToken_ok_fingerprint _ _ _ _ Hd) as (ct & Hct & Hfp & Hweb).
    assert (fst (fingerprintFromToken token) = Ok (fingerprint res))
      by now rewrite fingerprintFromToken_parse, Hweb, Hct, Hfp.
    destruct (Z.ltb_spec (used p (fingerprint res)) maxAttempts);
      [left|right; left]; exists res, ops; auto.
  - right; right.
    destruct (fingerprintFromToken token) as [[fp|e'] ops'] eqn:Hfp.
    + left. rewrite fingerprintFromToken_parse in Hfp.
      destruct hasWebCrypto eqn:Hweb; [|discriminate].
      destruct (parseCiphertext token) as [ct|] eqn:Hct; [|discriminate].
      injection Hfp as <- <-. exists e, ops, ct.
      repeat split; reflexivity.
    + right. exists e, ops, e', ops'. auto.
Qed.

(** ** The history *)



(** ** The counters *)

Lemma used_insert_ne p q fp fp' n :
  attempts q = <[fp' := n]> (attempts p) -> fp' <> fp -> used q fp = used p fp.
Proof. intros E Hne. unfold used. now rewrite E, lookup_insert_ne. Qed.

Lemma used_same p q fp : attempts q = attempts p -> used q fp = used p fp.
Proof. intros E. unfold used. now rewrite E. Qed.


(** [runDecrypt] moves the counter of a fingerprint to zero, up by one, or
    not at all; to zero only from below the maximum. *)
Lemma runDecrypt_counter p fp :
  used (runDecrypt p) fp = used p fp
  \/ used (runDecrypt p) fp = (used p fp + 1)%Z
  \/ (used (runDecrypt p) fp = 0%Z /\ (used p fp < maxAttempts)%Z).
Proof.
  destruct (classic_filled p) as [Hf|Hf].
  2:{ left. apply used_same. now apply runDecrypt_not_filled. }
  destruct (runDecrypt_cases p Hf)
    as [(res & ops & Hd & _ & Hlt)
       |[(res & ops & Hd & _ & Hge)
        |[(e & ops & ct & Hd & Hweb & Hct & _)
         |(e & ops & e' & ops' & Hd & Hfp)]]].
  - destruct (runDecrypt_success p res ops Hf Hd Hlt) as [Ha _].
    destruct (decide (fingerprint res = fp)) as [<-|Hne].
    + right; right. split; [|exact Hlt]. exact (used_insert _ _ _ _ Ha).
    + left. exact (used_insert_ne _ _ _ _ _ Ha Hne).
  - destruct (runDecrypt_locked p res ops Hf Hd Hge) as [Ha _].
    left. now apply used_same.
  - destruct (runDecrypt_charged p e ops ct Hf Hd Hweb Hct) as [Ha _].
    destruct (decide (fingerprintOf ct = fp)) as [<-|Hne].
    + right; left. exact (used_insert _ _ _ _ Ha).
    + left. exact (used_insert_ne _ _ _ _ _ Ha Hne).
  - destruct (runDecrypt_uncharged p e ops e' ops' Hf Hd Hfp) as [Ha _].
    left. now apply used_same.
Qed.

(** Only [runDecrypt] writes the attempts map. *)
Lemma act_attempts a s :
  a <> Decrypt -> attempts (page (act a s)) = attempts (page s).
Proof.
  destruct a; intros Ha; try contradiction; cbn [act onPage page];
    try reflexivity.
  - destruct clipboard as [[|c text]|e]; reflexivity.
  - unfold runEncryptText, runEncrypt_catch, randomUUID.
    destruct (trim (plainText (form s))); [reflexivity|].
    destruct (trim (encPassword (form s))); [reflexivity|].
    destruct (encryptText _ _ _ _ _) as [[e|e] ops];
      destruct hasWebCrypto; reflexivity.
  - unfold runEncryptFile, runEncrypt_catch, randomUUID.
    destruct (fileToEncrypt (form s)); [|reflexivity].
    destruct (trim (encPassword (form s))); [reflexivity|].
    destruct (encryptFile _ _ _ _ _) as [[e|e] ops];
      destruct hasWebCrypto; reflexivity.
  - unfold clearHistory. destruct (history (page s)); [reflexivity|].
    destruct confirmed; reflexivity.
Qed.

Lemma act_counter a s fp :
  used (page (act a s)) fp = used (page s) fp
  \/ used (page (act a s)) fp = (used (page s) fp + 1)%Z
  \/ (used (page (act a s)) fp = 0%Z /\ (used (page s) fp < maxAttempts)%Z).
Proof.
  destruct a; try (left; apply used_same; now apply act_attempts).
  apply runDecrypt_counter.
Qed.

Lemma actAll_keeps_lock l s fp :
  (maxAttempts <= used (page s) fp)%Z ->
  (maxAttempts <= used (page (actAll l s)) fp)%Z.
Proof.
  revert s. unfold actAll.
  induction l as [|a l IH]; intros s Hs; cbn [fold_left]; [exact Hs|].
  apply IH. destruct (act_counter a s fp) as [E|[E|[E Hlt]]]; lia.
Qed.

(** Once the counter of a fingerprint has reached five, nothing a user
    does on the page brings it below five again, and every later attempt
    on a token of that fingerprint, whatever the key, is answered by one
    of the two toasts that report the lock and puts nothing on display. *)
Theorem lock_is_never_lifted (s : Lab) (fp : jsstring) (l : list Action) :
  (maxAttempts <= used (page s) fp)%Z ->
  (maxAttempts <= used (page (actAll l s)) fp)%Z
  /\ forall token password,
       fst (fingerprintFromToken token) = Ok fp -> trim password <> [] ->
       let p := page (actAll (l ++ [Type_decrypt token password; Decrypt]) s) in
       nothingShown p
       /\ (last (log p) = Some LOCKED \/ last (log p) = Some WRONG_KEY_LOCKED).
Proof.
  intros Hlock.
  pose proof (actAll_keeps_lock l s fp Hlock) as Hl.
  split; [exact Hl|]. intros token password Hfp Hpw.
  unfold actAll. rewrite fold_left_app. fold (actAll l s).
  set (s1 := actAll l s) in *. cbn [fold_left act onPage page].
  set (p := fill token password (page s1)).
  assert (Hp : (maxAttempts <= used p fp)%Z) by exact Hl.
  rewrite <- fingerprintFromToken_trim in Hfp.
  assert (Hf : filled p).
  { split; [|exact Hpw]. cbn [p tokenToDecrypt fill]. intros Et.
    revert Hfp. rewrite Et, fingerprintFromToken_parse.
    destruct hasWebCrypto; discriminate. }
  destruct (runDecrypt_cases p Hf)
    as [(res & ops & Hd & Hfp' & Hlt)
       |[(res & ops & Hd & _ & Hge)
        |[(e & ops & ct & Hd & Hweb & Hct & Hfp')
         |(e & ops & e' & ops' & Hd & Hfp')]]];
    try (cbn [p tokenToDecrypt fill] in Hfp').
  - exfalso. assert (fingerprint res = fp) by congruence. subst fp. lia.
  - destruct (runDecrypt_locked p res ops Hf Hd Hge) as (_ & Hlog & Hn).
    split; [exact Hn|]. left. now rewrite Hlog, !app_assoc, last_snoc.
  - destruct (runDecrypt_charged p e ops ct Hf Hd Hweb Hct) as (_ & Hlog & Hn).
    split; [exact Hn|]. right. rewrite Hlog, !app_assoc, last_snoc.
    assert (fingerprintOf ct = fp) by congruence. subst fp.
    now replace (maxAttempts <=? used p (fingerprintOf ct) + 1)%Z
      with true by (symmetry; lia).
  - exfalso. rewrite Hfp' in Hfp. discriminate.
Qed.

(** The only counter the page ever writes is the one of the fingerprint
    of the token in the decrypt form, and only [runDecrypt] writes it. *)
Theorem only_the_tokens_counter_changes (a : Action) (s : Lab)
    (fp : jsstring) :
  attempts (page (act a s)) !! fp <> attempts (page s) !! fp ->
  a = Decrypt
  /\ fst (fingerprintFromToken (tokenToDecrypt (page s))) = Ok fp.
Proof.
  intros Hchange.
  destruct a;
    try (exfalso; apply Hchange; now rewrite act_attempts).
  split; [reflexivity|]. cbn [act onPage page] in Hchange.
  set (p := page s) in *.
  rewrite <- fingerprintFromToken_trim.
  destruct (classic_filled p) as [Hf|Hf].
  2:{ exfalso. apply Hchange. now rewrite runDecrypt_not_filled. }
  destruct (runDecrypt_cases p Hf)
    as [(res & ops & Hd & Hfp & Hlt)
       |[(res & ops & Hd & _ & Hge)
        |[(e & ops & ct & Hd & Hweb & Hct & Hfp)
         |(e & ops & e' & ops' & Hd & Hfp)]]].
  - destruct (runDecrypt_success p res ops Hf Hd Hlt) as [Ha _].
    destruct (decide (fingerprint res = fp)) as [<-|Hne]; [exact Hfp|].
    exfalso. apply Hchange. now rewrite Ha, lookup_insert_ne.
  - destruct (runDecrypt_locked p res ops Hf Hd Hge) as [Ha _].
    exfalso. apply Hchange. now rewrite Ha.
  - destruct (runDecrypt_charged p e ops ct Hf Hd Hweb Hct) as [Ha _].
    destruct (decide (fingerprintOf ct = fp)) as [<-|Hne]; [exact Hfp|].
    exfalso. apply Hchange. now rewrite Ha, lookup_insert_ne.
  - destruct (runDecrypt_uncharged p e ops e' ops' Hf Hd Hfp) as [Ha _].
    exfalso. apply Hchange. now rewrite Ha.
Qed.


(** ** From the encrypt tab to the decrypt tab *)






(** ** The page without WebCrypto *)

(** Without [crypto.subtle] the page only reports it: nothing a user does
    changes the attempts map, an attempt to decrypt ends with the message
    of the error and nothing on display, and an encryption ends with that
    message and no token. *)
Theorem without_webcrypto_the_page_only_reports_it :
  hasWebCrypto = false ->
  let unavailable := "WebCrypto is not available in this environment."%string in
  (forall l s, attempts (page (actAll l s)) = attempts (page s))
  /\ (forall p, filled p ->
        log (runDecrypt p)
        = log p ++ [toast_error (MessageOf (Error unavailable))]
        /\ nothingShown (runDecrypt p))
  /\ (forall salt iv createdAt s,
        trim (plainText (form s)) <> [] -> trim (encPassword (form s)) <> [] ->
        let s1 := runEncryptText salt iv createdAt s in
        encryptedToken (form s1) = []
        /\ log (page s1) = log (page s) ++ [toast_error (Literal unavailable)])
  /\ (forall salt iv createdAt s file,
        fileToEncrypt (form s) = Some file ->
        trim (encPassword (form s)) <> [] ->
        let s1 := runEncryptFile salt iv createdAt s in
        encryptedToken (form s1) = []
        /\ log (page s1) = log (page s) ++ [toast_error (Literal unavailable)]).
Proof.
  intros Hweb unavailable.
  assert (Hrun : forall p, filled p ->
            attempts (runDecrypt p) = attempts p
            /\ log (runDecrypt p)
               = log p ++ [toast_error (MessageOf (Error unavailable))]
            /\ nothingShown (runDecrypt p)).
  { intros p Hf.
    assert (Hd : decryptToken (trim (tokenToDecrypt p)) (decPassword p)
                 = (Throw (Error unavailable), []))
      by now rewrite decryptToken_parse, Hweb.
    assert (Hfp : fingerprintFromToken (trim (tokenToDecrypt p))
                  = (Throw (Error unavailable), []))
      by now rewrite fingerprintFromToken_parse, Hweb.
    destruct (runDecrypt_uncharged p _ _ _ _ Hf Hd Hfp) as (Ha & Hlog & Hn).
    cbn [map app] in Hlog. auto. }
  split; [|split; [|split]].
  - intros l. unfold actAll.
    induction l as [|a l IH]; intros s; cbn [fold_left]; [reflexivity|].
    rewrite IH. destruct a; try (now apply act_attempts).
    cbn [act onPage page].
    destruct (classic_filled (page s)) as [Hf|Hf];
      [now apply Hrun|now apply runDecrypt_not_filled].
  - intros p Hf. now destruct (Hrun p Hf) as (_ & Hlog & Hn).
  - intros salt iv createdAt s Ht Hp s1. subst s1.
    unfold runEncryptText, runEncrypt_catch, randomUUID.
    destruct (trim (plainText (form s))); [contradiction|].
    destruct (trim (encPassword (form s))); [contradiction|].
    rewrite encryptText_eq, Hweb. cbn. now rewrite app_nil_r.
  - intros salt iv createdAt s file Hfile Hp s1. subst s1.
    unfold runEncryptFile, runEncrypt_catch, randomUUID. rewrite Hfile.
    destruct (trim (encPassword (form s))); [contradiction|].
    rewrite encryptFile_eq, Hweb. cbn. now rewrite app_nil_r.
Qed.

End MorePage.

(** * The history of encryptions *)

Section Encryptions.
Context {host : Host}.
Import JS Crypto CryptoLab Handlers Shape.



End Encryptions.

(** * The attempts map in [localStorage] *)

Section Reload.
Context {host : Host}.
Import CryptoLab Storage.

(** What [saveAttemptsMap] stores, [loadAttemptsMap] gives back, when the
    browser takes the write and lets the page read, and JSON reads back
    what it wrote; when the browser refuses the write, the error is
    swallowed and [loadAttemptsMap] gives what it gave before. With no
    item stored, or an empty one, or when the browser does not let the
    page read, [loadAttemptsMap] gives the empty map. *)
Theorem attempts_map_survives_a_reload (s : LocalStorage)
    (props : list (jsstring * Value)) :
  let map := VObj props in
  JSON_stringify map <> [] -> JSON_parse (JSON_stringify map) = Some map ->
  (readable s = true -> accepts s ATTEMPTS_KEY (JSON_stringify map) = true ->
   loadAttemptsMap (saveAttemptsMap map s) = map)
  /\ (accepts s ATTEMPTS_KEY (JSON_stringify map) = false ->
      loadAttemptsMap (saveAttemptsMap map s) = loadAttemptsMap s)
  /\ (readable s = false \/ items s !! ATTEMPTS_KEY = None
      \/ items s !! ATTEMPTS_KEY = Some [] ->
      loadAttemptsMap s = VObj []).
Proof.
  intros map Hne Hjson. split; [|split].
  - intros Hr Ha. unfold saveAttemptsMap, setItem. rewrite Ha.
    unfold loadAttemptsMap, getItem. cbn [readable items]. rewrite Hr.
    rewrite lookup_insert_eq.
    destruct (JSON_stringify map) eqn:E; [contradiction|].
    now rewrite Hjson.
  - intros Ha. unfold saveAttemptsMap, setItem. now rewrite Ha.
  - unfold loadAttemptsMap, getItem.
    intros [Hr|[Hi|Hi]]; [now rewrite Hr|..].
    + destruct (readable s); [|reflexivity]. unfold jsstring in *. now rewrite Hi.
    + destruct (readable s); [|reflexivity]. unfold jsstring in *. now rewrite Hi.
Qed.

End Reload.

(** * [fmtBytes] *)

Section Sizes.
Import Format.

Example fmtBytes_examples :
  fmtBytes None = str "-"
  /\ fmtBytes (Some 0%Z) = str "0 B"
  /\ fmtBytes (Some 1023%Z) = str "1023 B"
  /\ fmtBytes (Some 1024%Z) = str "1.0 KB"
  /\ fmtBytes (Some 1280%Z) = str "1.3 KB"
  /\ fmtBytes (Some 1536%Z) = str "1.5 KB"
  /\ fmtBytes (Some 1048575%Z) = str "1024.0 KB"
  /\ fmtBytes (Some 10485760%Z) = str "10.0 MB"
  /\ fmtBytes (Some 5000000000000%Z) = str "4656.6 GB".
Proof. repeat split; vm_compute; reflexivity. Qed.

(** The unit [fmtBytes] settles on. *)
Lemma scale_unit n :
  scale (length units - 1) n 0
  = if (n <? 1024)%Z then 0%nat
    else if (n <? 1048576)%Z then 1%nat
    else if (n <? 1073741824)%Z then 2%nat
    else 3%nat.
Proof.
  cbn [length units Nat.sub scale Nat.ltb Nat.leb andb].
  change (1024 ^ (Z.of_nat 0 + 1))%Z with 1024%Z.
  change (1024 ^ (Z.of_nat 1 + 1))%Z with 1048576%Z.
  change (1024 ^ (Z.of_nat 2 + 1))%Z with 1073741824%Z.
  rewrite !andb_true_r.
  destruct (Z.ltb_spec n 1024).
  { now replace (1024 <=? n)%Z with false by (symmetry; lia). }
  replace (1024 <=? n)%Z with true by (symmetry; lia).
  destruct (Z.ltb_spec n 1048576).
  { now replace (1048576 <=? n)%Z with false by (symmetry; lia). }
  replace (1048576 <=? n)%Z with true by (symmetry; lia).
  destruct (Z.ltb_spec n 1073741824).
  { now replace (1073741824 <=? n)%Z with false by (symmetry; lia). }
  now replace (1073741824 <=? n)%Z with true by (symmetry; lia).
Qed.

(** Of the integers a number holds exactly, one below 1024 is shown as
    it is, in bytes. One from 1024 on is shown in the largest unit, up to
    GB, that it reaches, as the multiple of a tenth of that unit nearest
    to it; the number shown is at least 1.0 and, for KB and MB, at most
    1024.0 (which it reaches: 1048575 is shown as 1024.0 KB). *)
Theorem fmtBytes_rounds_to_a_tenth (n : Z) :
  ((- 9007199254740992 < n < 1024)%Z ->
   fmtBytes (Some n) = decimal n ++ str " B")
  /\ ((1024 <= n < 9007199254740992)%Z ->
      exists (i : nat) (m : Z),
        fmtBytes (Some n)
        = decimal (m / 10) ++ str "." ++ decimal (m mod 10) ++ str " "
          ++ str (nth i units ""%string)
        /\ (1 <= i <= 3)%nat
        /\ (1024 ^ Z.of_nat i <= n)%Z
        /\ ((i < 3)%nat -> (n < 1024 ^ (Z.of_nat i + 1))%Z)
        /\ (2 * Z.abs (10 * n - m * 1024 ^ Z.of_nat i) <= 1024 ^ Z.of_nat i)%Z
        /\ (10 <= m)%Z
        /\ ((i < 3)%nat -> (m <= 10240)%Z)).
Proof.
  unfold fmtBytes. rewrite scale_unit. split.
  - intros Hn. destruct (Z.ltb_spec n 1024); [reflexivity|lia].
  - intros Hn. destruct (Z.ltb_spec n 1024); [lia|].
    destruct (Z.ltb_spec n 1048576);
      [|destruct (Z.ltb_spec n 1073741824)];
      cbn [Nat.eqb]; unfold toFixed1; cbv zeta;
      eexists _, _; (split; [rewrite <- !app_assoc; reflexivity|]).
    + change (1024 ^ Z.of_nat 1)%Z with 1024%Z.
      change (1024 ^ (Z.of_nat 1 + 1))%Z with 1048576%Z.
      repeat split; lia.
    + change (1024 ^ Z.of_nat 2)%Z with 1048576%Z.
      change (1024 ^ (Z.of_nat 2 + 1))%Z with 1073741824%Z.
      repeat split; lia.
    + change (1024 ^ Z.of_nat 3)%Z with 1073741824%Z.
      repeat split; lia.
Qed.

End Sizes.

(** * The further properties on the test host *)

Section OnTestHost.
Import JS Crypto CryptoLab Handlers.

Lemma without_webcrypto_nothing_runs_witness :
  let unavailable := Error "WebCrypto is not available in this environment." in
  (forall text opts salt iv createdAt,
      encryptText (host := TestHost.bare) text opts salt iv createdAt
      = (Throw unavailable, []))
  /\ (forall file opts salt iv createdAt,
        encryptFile (host := TestHost.bare) file opts salt iv createdAt
        = (Throw unavailable, []))
  /\ (forall token password,
        decryptToken (host := TestHost.bare) token password
        = (Throw unavailable, []))
  /\ (forall token,
        fingerprintFromToken (host := TestHost.bare) token
        = (Throw unavailable, [])).
Proof.
  apply (without_webcrypto_nothing_runs (host := TestHost.bare)). reflexivity.
Defined.

Lemma decryptToken_fails_in_four_ways_witness :
  (isEnvironmentError (Error "Unsupported token version.") /\ @nil CryptoOp = [])
  \/ (isFormatError (Error "Unsupported token version.") /\ @nil CryptoOp = [])
  \/ (Error "Unsupported token version." = OperationError
      /\ exists salt iter, [] = [OpDeriveKey (str "x") salt iter])
  \/ (isAuthenticationError (Error "Unsupported token version.")
      /\ exists salt iter iv ct,
           [] = [OpDeriveKey (str "x") salt iter; OpDecrypt iv ct]).
Proof.
  apply (decryptToken_fails_in_four_ways (host := TestHost.host)
           TestHost.emptyHeaderToken (str "x")).
  vm_compute. reflexivity.
Defined.

Lemma testHost_json_forged :
  jsonRoundTrips (host := TestHost.host) TestHost.forgedHeader.
Proof. repeat split; vm_compute; reflexivity. Qed.

Lemma header_is_taken_on_trust_witness :
  decryptToken (host := TestHost.host)
    (tokenOf (host := TestHost.host) TestHost.forgedHeader
       TestHost.forgedCiphertext)
    (str "correct-horse")
  = (Ok (if isStr (headerProp (definedProps TestHost.forgedHeader) "kind")
              "text"
         then TextResult (definedProps TestHost.forgedHeader)
                (utf8Decode (map JS.byteOf [1; 2; 3]))
                (fingerprintOf (host := TestHost.host)
                   TestHost.forgedCiphertext)
         else FileResult (definedProps TestHost.forgedHeader)
                (map JS.byteOf [1; 2; 3])
                (fingerprintOf (host := TestHost.host)
                   TestHost.forgedCiphertext)),
     [OpDeriveKey (str "correct-horse") TestHost.salt0 (VNum 1);
      OpDecrypt TestHost.iv0 TestHost.forgedCiphertext;
      OpDigest TestHost.forgedCiphertext]).
Proof.
  apply (header_is_taken_on_trust (host := TestHost.host)
           TestHost.forgedHeader TestHost.forgedCiphertext TestHost.salt0
           TestHost.iv0 (map JS.byteOf [1; 2; 3]) (VNum 1)
           (str "correct-horse") 201).
  - reflexivity.
  - apply testHost_json_forged.
  - reflexivity.
  - reflexivity.
  - reflexivity.
  - vm_compute. reflexivity.
  - vm_compute. reflexivity.
  - reflexivity.
  - vm_compute. reflexivity.
  - vm_compute. reflexivity.
Defined.

Lemma fingerprint_is_lowercase_hex_witness :
  length (str "c20c") = (2 * length (TestHost.digest TestHost.ciphertext0))%nat
  /\ Forall (fun c => 48 <= c <= 57 \/ 97 <= c <= 102) (str "c20c").
Proof.
  apply (fingerprint_is_lowercase_hex (host := TestHost.host)
           TestHost.ciphertext0 (str "c20c") [OpDigest TestHost.ciphertext0]).
  vm_compute. reflexivity.
Defined.

Lemma equal_fingerprints_equal_digests_witness :
  TestHost.digest (map JS.byteOf [1; 2]) = TestHost.digest (map JS.byteOf [2; 1]).
Proof.
  apply (equal_fingerprints_equal_digests (host := TestHost.host)
           (map JS.byteOf [1; 2]) (map JS.byteOf [2; 1]) (str "0302")
           [OpDigest (map JS.byteOf [1; 2])] [OpDigest (map JS.byteOf [2; 1])]);
    vm_compute; reflexivity.
Defined.

Lemma text_comes_back_decoded_witness :
  exists e ops,
    encryptText (host := TestHost.host) [0xFEFF; 0x61; 0xD800]
      (TestHost.opts "correct-horse") TestHost.salt0 TestHost.iv0
      TestHost.now0 = (Ok e, ops)
    /\ fst (decryptToken (host := TestHost.host) (token e)
              (str "correct-horse"))
       = Ok (TextResult (definedProps (encHeader e))
               (Shape.decoded [0xFEFF; 0x61; 0xD800]) (encFingerprint e)).
Proof.
  apply (text_comes_back_decoded (host := TestHost.host)
           [0xFEFF; 0x61; 0xD800] (TestHost.opts "correct-horse")).
  - reflexivity.
  - apply derivesKeys_default; [apply TestHostFacts.derivesKeys|lia].
  - apply TestHostFacts.decryptsOwn.
  - apply testHost_json_text.
  - repeat constructor.
Defined.

Example decoded_example : Shape.decoded [0xFEFF; 0x61; 0xD800] = [0x61; 0xFFFD].
Proof. reflexivity. Qed.



Lemma lock_is_never_lifted_witness :
  let l := [Clear_history true;
            Encrypt_text TestHost.salt0 TestHost.iv0 TestHost.now0;
            Type_decrypt TestHost.token0 (str "correct-horse"); Decrypt;
            Clear_decrypt] in
  (maxAttempts
   <= used (page (actAll (host := TestHost.host) l TestHost.lockedLab))
        (str "c20c"))%Z
  /\ forall token password,
       fst (fingerprintFromToken (host := TestHost.host) token)
       = Ok (str "c20c") ->
       trim password <> [] ->
       let p := page (actAll (host := TestHost.host)
                        (l ++ [Type_decrypt token password; Decrypt])
                        TestHost.lockedLab) in
       nothingShown p
       /\ (last (log p) = Some LOCKED \/ last (log p) = Some WRONG_KEY_LOCKED).
Proof.
  apply (lock_is_never_lifted (host := TestHost.host) TestHost.lockedLab
           (str "c20c")).
  vm_compute. discriminate.
Defined.

Lemma only_the_tokens_counter_changes_witness :
  Decrypt = Decrypt
  /\ fst (fingerprintFromToken (host := TestHost.host)
            (tokenToDecrypt (page TestHost.emptyHeaderLab)))
     = Ok (str "0003").
Proof.
  apply (only_the_tokens_counter_changes (host := TestHost.host) Decrypt
           TestHost.emptyHeaderLab (str "0003")).
  vm_compute. discriminate.
Defined.






Lemma without_webcrypto_the_page_only_reports_it_witness :
  let unavailable := "WebCrypto is not available in this environment."%string in
  (forall l s,
      attempts (page (actAll (host := TestHost.bare) l s)) = attempts (page s))
  /\ (forall p, filled p ->
        log (runDecrypt (host := TestHost.bare) p)
        = log p ++ [toast_error (MessageOf (Error unavailable))]
        /\ nothingShown (runDecrypt (host := TestHost.bare) p))
  /\ (forall salt iv createdAt s,
        trim (plainText (form s)) <> [] -> trim (encPassword (form s)) <> [] ->
        let s1 := runEncryptText (host := TestHost.bare) salt iv createdAt s in
        encryptedToken (form s1) = []
        /\ log (page s1) = log (page s) ++ [toast_error (Literal unavailable)])
  /\ (forall salt iv createdAt s file,
        fileToEncrypt (form s) = Some file ->
        trim (encPassword (form s)) <> [] ->
        let s1 := runEncryptFile (host := TestHost.bare) salt iv createdAt s in
        encryptedToken (form s1) = []
        /\ log (page s1) = log (page s) ++ [toast_error (Literal unavailable)]).
Proof.
  apply (without_webcrypto_the_page_only_reports_it (host := TestHost.bare)).
  reflexivity.
Defined.

Lemma attempts_map_survives_a_reload_witness :
  let map := VObj [(str "c20c", VNum 5)] in
  (Storage.readable TestHost.storage0 = true ->
   Storage.accepts TestHost.storage0 Storage.ATTEMPTS_KEY
     (TestHost.stringify map) = true ->
   Storage.loadAttemptsMap (host := TestHost.host)
     (Storage.saveAttemptsMap (host := TestHost.host) map TestHost.storage0)
   = map)
  /\ (Storage.accepts TestHost.storage0 Storage.ATTEMPTS_KEY
        (TestHost.stringify map) = false ->
      Storage.loadAttemptsMap (host := TestHost.host)
        (Storage.saveAttemptsMap (host := TestHost.host) map TestHost.storage0)
      = Storage.loadAttemptsMap (host := TestHost.host) TestHost.storage0)
  /\ (Storage.readable TestHost.storage0 = false
      \/ Storage.items TestHost.storage0 !! Storage.ATTEMPTS_KEY = None
      \/ Storage.items TestHost.storage0 !! Storage.ATTEMPTS_KEY = Some [] ->
      Storage.loadAttemptsMap (host := TestHost.host) TestHost.storage0
      = VObj []).
Proof.
  apply (attempts_map_survives_a_reload (host := TestHost.host)
           TestHost.storage0 [(str "c20c", VNum 5)]).
  - vm_compute. discriminate.
  - vm_compute. reflexivity.
Defined.

Lemma testHost_noted :
  encryptText (host := TestHost.host) (str "hello world") TestHost.notedOpts
    TestHost.salt0 TestHost.iv0 TestHost.now0
  = (Ok (TestHost.encryptedWith TestHost.notedOpts),
     snd (encryptText (host := TestHost.host) (str "hello world")
            TestHost.notedOpts TestHost.salt0 TestHost.iv0 TestHost.now0)).
Proof. vm_compute. reflexivity. Qed.

Lemma tokens_are_copy_paste_safe_witness :
  Shape.wellShaped (token (TestHost.encryptedWith TestHost.notedOpts)).
Proof.
  apply (proj1 (tokens_are_copy_paste_safe (host := TestHost.host))
           (str "hello world") TestHost.notedOpts TestHost.salt0 TestHost.iv0
           TestHost.now0 _ _ testHost_noted).
Defined.

Lemma returned_fingerprint_is_the_tokens_witness :
  fst (fingerprintFromToken (host := TestHost.host)
         (token (TestHost.encryptedWith TestHost.notedOpts)))
  = Ok (encFingerprint (TestHost.encryptedWith TestHost.notedOpts)).
Proof.
  apply (proj1 (returned_fingerprint_is_the_tokens (host := TestHost.host))
           (str "hello world") TestHost.notedOpts TestHost.salt0 TestHost.iv0
           TestHost.now0 _ _ testHost_noted).
Defined.

Lemma note_is_trimmed_or_left_out_witness :
  Shape.noteOf (Some (str " backup  "))
    (headerProp (encHeader (TestHost.encryptedWith TestHost.notedOpts)) "note").
Proof.
  apply (proj1 (note_is_trimmed_or_left_out (host := TestHost.host))
           (str "hello world") TestHost.notedOpts TestHost.salt0 TestHost.iv0
           TestHost.now0 _ _ testHost_noted).
Defined.

Example noted_header :
  headerProp (encHeader (TestHost.encryptedWith TestHost.notedOpts)) "note"
  = VStr (str "backup").
Proof. vm_compute. reflexivity. Qed.



Lemma fmtBytes_rounds_to_a_tenth_witness :
  ((- 9007199254740992 < 1048575 < 1024)%Z ->
   Format.fmtBytes (Some 1048575%Z) = Format.decimal 1048575 ++ str " B")
  /\ ((1024 <= 1048575 < 9007199254740992)%Z ->
      exists (i : nat) (m : Z),
        Format.fmtBytes (Some 1048575%Z)
        = Format.decimal (m / 10) ++ str "." ++ Format.decimal (m mod 10)
          ++ str " " ++ str (nth i Format.units ""%string)
        /\ (1 <= i <= 3)%nat
        /\ (1024 ^ Z.of_nat i <= 1048575)%Z
        /\ ((i < 3)%nat -> (1048575 < 1024 ^ (Z.of_nat i + 1))%Z)
        /\ (2 * Z.abs (10 * 1048575 - m * 1024 ^ Z.of_nat i)
            <= 1024 ^ Z.of_nat i)%Z
        /\ (10 <= m)%Z
        /\ ((i < 3)%nat -> (m <= 10240)%Z)).
Proof. apply (fmtBytes_rounds_to_a_tenth 1048575). Defined.

End OnTestHost.
